(** * File parsing and field-mapping pipeline (file-parsing-api-node)

    A shallow embedding of [server.js], [db.js] and [config.js] of the
    Node variant of the file parsing API, and the properties of its
    detect / parse / map / validate / store pipeline.

    Conventions of the embedding:
    - JavaScript strings are [string]s; [toLowerCase] and [trim] act on
      the ASCII range.
    - A JavaScript object that is only iterated ([Object.entries]) is the
      list of its entries in enumeration order; an object that is written
      and read by key is a [gmap string _] of its own properties,
      together with its prototype where the code can reach it: a write
      to the key [__proto__] runs the accessor of [Object.prototype], a
      read finds what [Object.prototype] or a replaced prototype provide.
      Objects that the code builds key by key and later enumerates keep
      the enumeration order of JavaScript (array indices first).
    - Promises that reject and statements that throw are [Throw e];
      everything the code obtains from a library or from the outside
      (file system, [JSON.parse], the CSV and spreadsheet readers, the
      PostgreSQL client) is a field of an explicit world record. *)

From Stdlib Require Import ZArith Ascii String List Bool Lia.
From stdpp Require Import base option list gmap strings pretty.

Local Open Scope string_scope.
Set Warnings "-register-all,-clear-no-such-hyp".

(** ** Results of computations that may throw *)

Inductive Exn : Type :=
  | Error (message : string)   (* [new Error(message)] raised by the code itself *)
  | TypeError                  (* raised by the runtime, e.g. [Object.keys(undefined)] *)
  | SyntaxError                (* raised by [JSON.parse] *)
  | IOError                    (* file system or stream failure *)
  | DbError.                   (* raised by the PostgreSQL client *)

Inductive Result (A : Type) : Type :=
  | Ok (a : A)
  | Throw (e : Exn).
Arguments Ok {A} a.
Arguments Throw {A} e.

Definition bindR {A B} (r : Result A) (k : A -> Result B) : Result B :=
  match r with
  | Ok a => k a
  | Throw e => Throw e
  end.

Notation "x <-! r ;; k" := (bindR r (fun x => k))
  (at level 100, r at next level, right associativity).

Fixpoint mapR {A B} (f : A -> Result B) (l : list A) : Result (list B) :=
  match l with
  | [] => Ok []
  | a :: l' => b <-! f a ;; bs <-! mapR f l' ;; Ok (b :: bs)
  end.

Definition isOk {A} (r : Result A) : bool :=
  match r with Ok _ => true | Throw _ => false end.

(** ** JavaScript values and strings *)

Inductive JSValue : Type :=
  | JNull
  | JBool (b : bool)
  | JNum (n : Z)      (* a number, by its integer value; every other number is non-zero *)
  | JStr (s : string)
  | JArr (items : list JSValue)
  | JObj (props : list (string * JSValue)).   (* entries in enumeration order *)

(** [ToBoolean]: what [if (v)], [!v] and [every(field => record[field])] test. *)
Definition truthy (v : JSValue) : bool :=
  match v with
  | JNull => false
  | JBool b => b
  | JNum n => negb (n =? 0)%Z
  | JStr s => negb (String.eqb s "")
  | JArr _ => true
  | JObj _ => true
  end.

(** [obj[key]] is [undefined] when the key is absent; [undefined] is falsy. *)
Definition truthy_prop (o : option JSValue) : bool :=
  match o with
  | Some v => truthy v
  | None => false
  end.

Definition lower_ascii (c : ascii) : ascii :=
  let n := N_of_ascii c in
  if ((65 <=? n) && (n <=? 90))%N then ascii_of_N (n + 32) else c.

Fixpoint toLowerCase (s : string) : string :=
  match s with
  | EmptyString => EmptyString
  | String c s' => String (lower_ascii c) (toLowerCase s')
  end.

Definition is_space (c : ascii) : bool :=
  let n := N_of_ascii c in
  ((n =? 32) || ((9 <=? n) && (n <=? 13)))%N.

Fixpoint trimStart (s : string) : string :=
  match s with
  | EmptyString => EmptyString
  | String c s' => if is_space c then trimStart s' else s
  end.

Fixpoint rev_string (acc s : string) : string :=
  match s with
  | EmptyString => acc
  | String c s' => rev_string (String c acc) s'
  end.

Definition trimEnd (s : string) : string :=
  rev_string "" (trimStart (rev_string "" s)).

Definition trim (s : string) : string := trimEnd (trimStart s).

(** [s.includes(sub)] *)
Fixpoint includes (s sub : string) : bool :=
  String.prefix sub s ||
  match s with
  | EmptyString => false
  | String _ s' => includes s' sub
  end.

Definition includes_char (s : string) (c : ascii) : bool :=
  includes s (String c "").

(** [s.split(sep)] for a one-character separator. *)
Fixpoint split_on (sep : ascii) (s : string) : list string :=
  match s with
  | EmptyString => [""]
  | String c s' =>
      if Ascii.eqb c sep then "" :: split_on sep s'
      else match split_on sep s' with
           | [] => [String c ""]
           | w :: ws => String c w :: ws
           end
  end.

Definition tab : ascii := ascii_of_N 9.
Definition newline : ascii := ascii_of_N 10.
Definition comma : ascii := ascii_of_N 44.

(** [Object.entries(v)]: throws on [null], is empty on numbers and booleans,
    indexes the characters of a string and the items of an array. *)
Definition indexed {A} (f : A -> JSValue) (l : list A) : list (string * JSValue) :=
  imap (fun i a => (pretty i, f a)) l.

Definition Object_entries (v : JSValue) : Result (list (string * JSValue)) :=
  match v with
  | JNull => Throw TypeError
  | JBool _ => Ok []
  | JNum _ => Ok []
  | JStr s => Ok (indexed (fun c => JStr (String c "")) (list_ascii_of_string s))
  | JArr items => Ok (indexed (fun x => x) items)
  | JObj props => Ok props
  end.

(** ** Own properties and prototypes *)

(** The prototype of an object the code builds: [Object.prototype] at
    first, [null] or an object value once [__proto__] has been assigned. *)
Inductive Proto : Type :=
  | ObjectPrototype
  | NullPrototype
  | ValuePrototype (v : JSValue).

Definition has_key {A} (key : string) (props : list (string * A)) : bool :=
  existsb (fun e => String.eqb (fst e) key) props.

(** Does a write to [__proto__] that finds no own property reach the
    accessor of [Object.prototype]?  Not when the chain has ended, nor
    when a parsed object on the chain has a data property of that name. *)
Definition accessor_reachable (p : Proto) : bool :=
  match p with
  | ObjectPrototype => true
  | NullPrototype => false
  | ValuePrototype (JObj props) => negb (has_key "__proto__" props)
  | ValuePrototype _ => true
  end.

(** The setter of [__proto__]: an object or [null] becomes the prototype,
    any other value is ignored. *)
Definition setter_result (p : Proto) (v : JSValue) : Proto :=
  match v with
  | JNull => NullPrototype
  | JObj _ => ValuePrototype v
  | JArr _ => ValuePrototype v
  | _ => p
  end.

(** [obj[key] = v]: [Some p'] when the write is taken by the accessor and
    leaves the prototype [p'] and no own property; [None] when it creates
    or updates an own property. *)
Definition proto_setter (hasOwn : bool) (p : Proto) (key : string) (v : JSValue)
    : option Proto :=
  if String.eqb key "__proto__" && negb hasOwn && accessor_reachable p
  then Some (setter_result p v)
  else None.

(** An object read and written by key. *)
Record RecObj : Type := {
  rec_own : gmap string JSValue;
  rec_proto : Proto
}.

Definition rec_set (o : RecObj) (key : string) (v : JSValue) : RecObj :=
  match proto_setter (bool_decide (is_Some (rec_own o !! key))) (rec_proto o) key v with
  | Some p' => {| rec_own := rec_own o; rec_proto := p' |}
  | None => {| rec_own := <[key := v]> (rec_own o); rec_proto := rec_proto o |}
  end.

Definition digit_value (c : ascii) : option N :=
  let n := N_of_ascii c in
  if ((48 <=? n) && (n <=? 57))%N then Some (n - 48)%N else None.

Fixpoint parse_digits (acc : N) (s : string) : option N :=
  match s with
  | EmptyString => Some acc
  | String c s' =>
      match digit_value c with
      | Some d => parse_digits (10 * acc + d)%N s'
      | None => None
      end
  end.

(** An array index: a canonical decimal numeral below 2^32 - 1.  Own
    properties with such keys are enumerated first, in ascending order. *)
Definition array_index (s : string) : option N :=
  match s with
  | EmptyString => None
  | String c rest =>
      if Ascii.eqb c "0" && negb (String.eqb rest "") then None
      else match parse_digits 0 s with
           | Some n => if (n <? 4294967295)%N then Some n else None
           | None => None
           end
  end.

(** An object built key by key and enumerated later: its own properties
    in enumeration order, and its prototype. *)
Record ListObj : Type := {
  props : list (string * JSValue);
  obj_proto : Proto
}.

Fixpoint replace_value (props : list (string * JSValue)) (key : string) (v : JSValue)
    : list (string * JSValue) :=
  match props with
  | [] => []
  | (k, x) :: rest =>
      if String.eqb k key then (k, v) :: rest else (k, x) :: replace_value rest key v
  end.

Fixpoint insert_index (i : N) (key : string) (v : JSValue)
    (props : list (string * JSValue)) : list (string * JSValue) :=
  match props with
  | [] => [(key, v)]
  | (k, x) :: rest =>
      match array_index k with
      | Some j => if (j <? i)%N then (k, x) :: insert_index i key v rest
                  else (key, v) :: props
      | None => (key, v) :: props
      end
  end.

(** Creation or update of an own property: an existing key keeps its
    place; a new array index goes to its place among the indices, any
    other new key is enumerated last. *)
Definition obj_set (props : list (string * JSValue)) (key : string) (v : JSValue)
    : list (string * JSValue) :=
  if has_key key props then replace_value props key v
  else match array_index key with
       | Some i => insert_index i key v props
       | None => props ++ [(key, v)]
       end.

Definition obj_assign (o : ListObj) (key : string) (v : JSValue) : ListObj :=
  match proto_setter (has_key key (props o)) (obj_proto o) key v with
  | Some p' => {| props := props o; obj_proto := p' |}
  | None => {| props := obj_set (props o) key v; obj_proto := obj_proto o |}
  end.

(** ** config.js *)

(** A mapping configuration: target field -> accepted source names,
    as [Object.entries] enumerates it. *)
Abbreviation Mapping := (list (string * list string)).

(** The table [fieldMappings]: its own entries, and the mapping object
    that a write to [__proto__] has made its prototype, if any ([None] is
    [Object.prototype]). *)
Record Table : Type := {
  table_own : gmap string Mapping;
  table_proto : option Mapping
}.

Module config.

Definition default_mapping : Mapping :=
  [ ("name", ["name"; "full_name"; "customer_name"; "client_name"]);
    ("address1", ["address"; "address1"; "street_address"; "street"]);
    ("city", ["city"; "town"]);
    ("state", ["state"; "province"; "region"]);
    ("zip", ["zip"; "zipcode"; "postal_code"; "postalcode"; "zip_code"]);
    ("authId", ["auth_id"; "authid"; "authorization_id"; "auth"; "id"]) ].

Definition vendor1_mapping : Mapping :=
  [ ("name", ["customer"]);
    ("address1", ["primary_address"]);
    ("city", ["customer_city"]);
    ("state", ["customer_state"]);
    ("zip", ["customer_zip"]);
    ("authId", ["customer_id"]) ].

Definition fieldMappings : Table :=
  {| table_own := <["vendor1" := vendor1_mapping]> (<["default" := default_mapping]> ∅);
     table_proto := None |}.

Definition requiredFields : list string := ["name"; "authId"].

(** [validation.rules]: the per-field rules the configuration declares. *)
Inductive Rule : Type :=
  | pattern_zip          (* /^\d{5}(-\d{4})?$/ *)
  | maxLength (n : nat).

Definition rules : list (string * Rule) :=
  [ ("zip", pattern_zip); ("state", maxLength 2) ].

End config.

(** ** server.js: file type detection *)

Inductive FileType : Type := csv | excel | json | text | unknown.

Definition FileType_name (t : FileType) : string :=
  match t with
  | csv => "csv" | excel => "excel" | json => "json" | text => "text"
  | unknown => "unknown"
  end.

(** [path.extname] of Node (POSIX flavour), a transcription of its
    right-to-left scan.  [startDot], [startPart] and [end_] are indices,
    [-1] when unset. *)
Record ExtScan : Type := {
  startDot : Z;
  startPart : Z;
  end_ : Z;
  matchedSlash : bool;
  preDotState : Z;
  stopped : bool
}.

Definition ext_step (st : ExtScan) (ic : Z * ascii) : ExtScan :=
  let '(i, c) := ic in
  if stopped st then st
  else if Ascii.eqb c "/" then
    if negb (matchedSlash st)
    then {| startDot := startDot st; startPart := i + 1; end_ := end_ st;
            matchedSlash := matchedSlash st; preDotState := preDotState st;
            stopped := true |}
    else st
  else
    let st1 :=
      if (end_ st =? -1)%Z
      then {| startDot := startDot st; startPart := startPart st; end_ := i + 1;
              matchedSlash := false; preDotState := preDotState st;
              stopped := false |}
      else st in
    if Ascii.eqb c "." then
      if (startDot st1 =? -1)%Z
      then {| startDot := i; startPart := startPart st1; end_ := end_ st1;
              matchedSlash := matchedSlash st1; preDotState := preDotState st1;
              stopped := false |}
      else {| startDot := startDot st1; startPart := startPart st1; end_ := end_ st1;
              matchedSlash := matchedSlash st1; preDotState := 1;
              stopped := false |}
    else if negb (startDot st1 =? -1)%Z
      then {| startDot := startDot st1; startPart := startPart st1; end_ := end_ st1;
              matchedSlash := matchedSlash st1; preDotState := -1;
              stopped := false |}
      else st1.

Definition slice (s : string) (from to : Z) : string :=
  String.substring (Z.to_nat from) (Z.to_nat (to - from)) s.

Definition extname (path : string) : string :=
  let chars := imap (fun i c => (Z.of_nat i, c)) (list_ascii_of_string path) in
  let st := fold_left ext_step (rev chars)
              {| startDot := -1; startPart := 0; end_ := -1;
                 matchedSlash := true; preDotState := 0; stopped := false |} in
  if ((startDot st =? -1) || (end_ st =? -1) || (preDotState st =? 0) ||
      ((preDotState st =? 1) && (startDot st =? end_ st - 1) &&
       (startDot st =? startPart st + 1)))%Z
  then ""
  else slice path (startDot st) (end_ st).

Definition detectFileType (filename : string) : FileType :=
  let ext := toLowerCase (extname filename) in
  if String.eqb ext ".csv" then csv
  else if String.eqb ext ".xlsx" then excel
  else if String.eqb ext ".xls" then excel
  else if String.eqb ext ".json" then json
  else if String.eqb ext ".txt" then text
  else unknown.

(** ** server.js: field mapping *)

(** The test inside [possibleSourceFields.some(...)]. *)
Definition alias_matches (sourceFieldLower f : string) : bool :=
  String.eqb (toLowerCase f) sourceFieldLower ||
  includes sourceFieldLower (toLowerCase f).

(** Body of the inner [forEach] over [Object.entries(mapping)]. *)
Definition assign_target (sourceFieldLower : string) (value : JSValue)
    (normalizedRecord : RecObj) (entry : string * list string) : RecObj :=
  let '(targetField, possibleSourceFields) := entry in
  if existsb (alias_matches sourceFieldLower) possibleSourceFields
  then rec_set normalizedRecord targetField value
  else normalizedRecord.

(** Body of the outer [forEach] over [Object.entries(record)]. *)
Definition process_entry (mapping : Mapping)
    (normalizedRecord : RecObj) (entry : string * JSValue) : RecObj :=
  let '(sourceField, value) := entry in
  let sourceFieldLower := trim (toLowerCase sourceField) in
  fold_left (assign_target sourceFieldLower value) mapping normalizedRecord.

(** "Initialize with nulls to ensure all fields exist", over [Object.keys]. *)
Definition init_keys (keys : list string) : RecObj :=
  fold_left (fun acc targetField => rec_set acc targetField JNull) keys
            {| rec_own := ∅; rec_proto := ObjectPrototype |}.

Definition init_nulls (mapping : Mapping) : RecObj := init_keys (map fst mapping).

Definition normalize_obj (mapping : Mapping) (entries : list (string * JSValue))
    : RecObj :=
  fold_left (process_entry mapping) entries (init_nulls mapping).

(** The normalized record, as its own properties. *)
Definition normalizeWith (mapping : Mapping) (entries : list (string * JSValue))
    : gmap string JSValue :=
  rec_own (normalize_obj mapping entries).

(** What [fieldMappings[key]] can be. *)
Inductive Found : Type :=
  | FMapping (mapping : Mapping)      (* an entry of the table, or its replaced prototype *)
  | FAliases (aliases : list string)  (* an alias array inherited from a replaced prototype *)
  | FBuiltin.                         (* a function of [Object.prototype], or that object *)

Definition Object_prototype_functions : list string :=
  [ "constructor"; "__defineGetter__"; "__defineSetter__"; "hasOwnProperty";
    "__lookupGetter__"; "__lookupSetter__"; "isPrototypeOf"; "propertyIsEnumerable";
    "toString"; "valueOf"; "toLocaleString" ].

Fixpoint assoc {A} (key : string) (l : list (string * A)) : option A :=
  match l with
  | [] => None
  | (k, x) :: rest => if String.eqb k key then Some x else assoc key rest
  end.

(** A read that reaches [Object.prototype]; [proto] is what the getter of
    [__proto__] returns for the table. *)
Definition Object_prototype_get (key : string) (proto : Found) : option Found :=
  if String.eqb key "__proto__" then Some proto
  else if existsb (String.eqb key) Object_prototype_functions then Some FBuiltin
  else None.

(** [fieldMappings[key]]; [None] is [undefined]. *)
Definition table_get (fieldMappings : Table) (key : string) : option Found :=
  match table_own fieldMappings !! key with
  | Some mapping => Some (FMapping mapping)
  | None =>
      match table_proto fieldMappings with
      | Some p =>
          match assoc key p with
          | Some aliases => Some (FAliases aliases)
          | None => Object_prototype_get key (FMapping p)
          end
      | None => Object_prototype_get key FBuiltin
      end
  end.

(** [fieldMappings[name] = mappings] *)
Definition table_set (fieldMappings : Table) (key : string) (m : Mapping) : Table :=
  if String.eqb key "__proto__" &&
     negb (bool_decide (is_Some (table_own fieldMappings !! key))) &&
     match table_proto fieldMappings with
     | Some p => negb (has_key "__proto__" p)
     | None => true
     end
  then {| table_own := table_own fieldMappings; table_proto := Some m |}
  else {| table_own := <[key := m]> (table_own fieldMappings);
          table_proto := table_proto fieldMappings |}.

(** [fieldMappings[mappingKey] || fieldMappings.default]: whatever is found
    is an object, an array or a function, hence truthy. *)
Definition select_mapping (fieldMappings : Table) (mappingKey : string)
    : option Found :=
  match table_get fieldMappings mappingKey with
  | Some found => Some found
  | None => table_get fieldMappings "default"
  end.

Definition normalizeRecord (fieldMappings : Table)
    (record : JSValue) (mappingKey : string) : Result (gmap string JSValue) :=
  match select_mapping fieldMappings mappingKey with
  | None => Throw TypeError                 (* [Object.keys(undefined)] *)
  | Some (FMapping mapping) =>
      entries <-! Object_entries record ;;
      Ok (normalizeWith mapping entries)
  | Some (FAliases aliases) =>
      (* the keys are the indices; each "alias list" is a string, without [some] *)
      entries <-! Object_entries record ;;
      match aliases, entries with
      | _ :: _, _ :: _ => Throw TypeError
      | _, _ => Ok (rec_own (init_keys (imap (fun i _ => pretty i) aliases)))
      end
  | Some FBuiltin =>
      (* no enumerable key *)
      entries <-! Object_entries record ;;
      Ok ∅
  end.

(** ** server.js: parsers *)

(** What the libraries and the file system answer for a file path. *)
Record World : Type := {
  readFile : string -> Result string;            (* [fs.readFile(path, 'utf8')] *)
  JSON_parse : string -> Result JSValue;         (* [JSON.parse] *)
  csv_rows : string -> Result (list JSValue);    (* rows emitted by [csv-parser] *)
  sheet_rows : string -> Result (list JSValue);  (* [sheet_to_json] of the first sheet *)
  unlinkSync : string -> Result unit             (* [fs.unlinkSync] *)
}.

Definition parseCSV (w : World) (filePath : string) : Result (list JSValue) :=
  csv_rows w filePath.

Definition parseExcel (w : World) (filePath : string) : Result (list JSValue) :=
  sheet_rows w filePath.

Definition parseJSON (w : World) (filePath : string) : Result (list JSValue) :=
  data <-! readFile w filePath ;;
  jsonData <-! JSON_parse w data ;;
  Ok (match jsonData with
      | JArr items => items           (* [Array.isArray(jsonData)] *)
      | _ => [jsonData]
      end).

(** "Detect delimiter (simple detection)". *)
Definition firstLine (data : string) : string := hd "" (split_on newline data).

Definition detectDelimiter (data : string) : ascii :=
  if includes_char (firstLine data) comma && negb (includes_char (firstLine data) tab)
  then comma
  else tab.

Definition text_record (delimiter : ascii) (headers : list string) (line : string)
    : JSValue :=
  let values := split_on delimiter line in
  JObj (props
          (fold_left
             (fun record '(index, header) =>
                obj_assign record header
                  (match values !! index with
                   | Some v => if negb (String.eqb v "") then JStr (trim v) else JNull
                   | None => JNull
                   end))
             (imap (fun index header => (index, header)) headers)
             {| props := []; obj_proto := ObjectPrototype |})).

Definition parseText_data (data : string) : list JSValue :=
  let delimiter := detectDelimiter data in
  let lines := split_on newline (trim data) in
  let headers := map trim (split_on delimiter (hd "" lines)) in
  map (text_record delimiter headers) (tl lines).

Definition parseText (w : World) (filePath : string) : Result (list JSValue) :=
  data <-! readFile w filePath ;;
  Ok (parseText_data data).

(** ** server.js: processFile *)

Record ProcessResult : Type := {
  total : Z;
  valid : Z;
  invalid : Z;
  records : list (gmap string JSValue)
}.

(** The predicate of [normalizedRecords.filter(...)]. *)
Definition isValid (record : gmap string JSValue) : bool :=
  forallb (fun field => truthy_prop (record !! field)) config.requiredFields.

Definition len {A} (l : list A) : Z := Z.of_nat (List.length l).

Definition parseBy (w : World) (fileType : FileType) (filePath : string)
    : Result (list JSValue) :=
  match fileType with
  | csv => parseCSV w filePath
  | excel => parseExcel w filePath
  | json => parseJSON w filePath
  | text => parseText w filePath
  | unknown => Throw (Error ("Unsupported file type: " +:+ FileType_name fileType))
  end.

(** Lines 186-200: normalize, validate, count. *)
Definition mapValidate (fieldMappings : Table)
    (parsed : list JSValue) (source : string) : Result ProcessResult :=
  normalizedRecords <-! mapR (fun record => normalizeRecord fieldMappings record source) parsed ;;
  let validRecords := List.filter isValid normalizedRecords in
  Ok {| total := len parsed;
        valid := len validRecords;
        invalid := len parsed - len validRecords;
        records := validRecords |}.

Definition processFile (w : World) (fieldMappings : Table)
    (filePath filename : string) (source : option string) : Result ProcessResult :=
  let source := default "default" source in
  let fileType := detectFileType filename in
  parsed <-! parseBy w fileType filePath ;;
  mapValidate fieldMappings parsed source.

(** ** db.js *)

(** Outcome of one [client.query(INSERT ... RETURNING id)]: the promise
    resolves with [result.rows], or rejects. *)
Inductive QueryOutcome : Type :=
  | Resolved (rows : list Z)
  | Rejected.

(** The PostgreSQL side of one call of [saveRecords]; [upsert i r] is the
    outcome of the [i]-th statement of the loop, issued for record [r]. *)
Record Db : Type := {
  connect_ok : bool;
  begin_ok : bool;
  upsert : nat -> gmap string JSValue -> QueryOutcome;
  commit_ok : bool
}.

Record SaveResult : Type := { success : bool; count : Z }.

(** The [for (const record of records)] loop with its inner [try/catch]. *)
Fixpoint save_loop (db : Db) (i : nat) (batch : list (gmap string JSValue))
    (savedCount : Z) : Z :=
  match batch with
  | [] => savedCount
  | record :: rest =>
      match upsert db i record with
      | Resolved rows =>
          save_loop db (S i) rest
            (if (0 <? len rows)%Z then savedCount + 1 else savedCount)%Z
      | Rejected => save_loop db (S i) rest savedCount   (* "Continue with other records" *)
      end
  end.

(** A failing [BEGIN] or [COMMIT] is caught by the outer [catch], which
    rolls back and rethrows; a failing [pool.connect] throws directly. *)
Definition saveRecords (db : Db) (batch : list (gmap string JSValue))
    : Result SaveResult :=
  if negb (connect_ok db) then Throw DbError
  else if negb (begin_ok db) then Throw DbError
  else
    let savedCount := save_loop db 0 batch 0%Z in
    if negb (commit_ok db) then Throw DbError
    else Ok {| success := true; count := savedCount |}.

(** ** server.js: endpoints *)

Record Summary : Type := {
  totalRecords : Z;
  validRecords : Z;
  invalidRecords : Z;
  savedRecords : Z
}.

Inductive Response : Type :=
  | BadRequest (error : string)     (* 400 *)
  | Processed (summary : Summary)   (* 200, 'File processed successfully' *)
  | Created (name : string)         (* 201, 'Mapping configuration created' *)
  | ServerError (e : Exn).          (* 500 *)

Record UploadedFile : Type := { path : string; originalname : string }.

Record UploadRequest : Type := {
  file : option UploadedFile;       (* [req.file] *)
  source : option string            (* [req.body.source] *)
}.

(** [POST /api/upload] *)
Definition upload (w : World) (db : Db) (fieldMappings : Table)
    (req : UploadRequest) : Response :=
  match file req with
  | None => BadRequest "No file uploaded"
  | Some f =>
      match
        (result <-! processFile w fieldMappings (path f) (originalname f) (source req) ;;
         saveResult <-! saveRecords db (records result) ;;
         _ <-! unlinkSync w (path f) ;;
         Ok {| totalRecords := total result;
               validRecords := valid result;
               invalidRecords := invalid result;
               savedRecords := count saveResult |})
      with
      | Ok summary => Processed summary
      | Throw e => ServerError e
      end
  end.

Record MappingRequest : Type := {
  name : option string;             (* [req.body.name] *)
  mappings : option Mapping         (* [req.body.mappings] *)
}.

(** [POST /api/mappings]: the response and the table [fieldMappings] after it. *)
Definition postMapping (fieldMappings : Table) (req : MappingRequest)
    : Response * Table :=
  match name req, mappings req with
  | Some n, Some m =>
      if negb (truthy (JStr n))
      then (BadRequest "Name and mappings are required", fieldMappings)
      else (Created n, table_set fieldMappings n m)
  | _, _ => (BadRequest "Name and mappings are required", fieldMappings)
  end.

(** ** The specification's wording, for comparison with the code *)

Module Spec.

(** FieldMapper tie-break as the specification words it: aliases are
    tried in list order, and for each alias the record's keys in key
    order; the first pair that matches decides, nothing overwrites it. *)
Definition first_match (aliases : list string) (entries : list (string * JSValue))
    : JSValue :=
  default JNull
    (head (flat_map
             (fun alias =>
                map snd
                  (List.filter
                     (fun e => alias_matches (trim (toLowerCase (fst e))) alias)
                     entries))
             aliases)).

Definition is_digit (c : ascii) : bool :=
  let n := N_of_ascii c in ((48 <=? n) && (n <=? 57))%N.

Definition all_digits (s : string) : bool :=
  forallb is_digit (list_ascii_of_string s).

(** [/^\d{5}(-\d{4})?$/] *)
Definition zip_pattern (s : string) : bool :=
  let n := String.length s in
  (Nat.eqb n 5 && all_digits s) ||
  (Nat.eqb n 10 && all_digits (substring 0 5 s) &&
   String.eqb (substring 5 1 s) "-" && all_digits (substring 6 4 s)).

(** A rule is checked on a field that is present with a text value. *)
Definition rule_passes (r : config.Rule) (o : option JSValue) : bool :=
  match o with
  | Some (JStr s) =>
      match r with
      | config.pattern_zip => zip_pattern s
      | config.maxLength n => Nat.leb (String.length s) n
      end
  | _ => true
  end.

Definition non_null_non_empty (o : option JSValue) : bool :=
  match o with
  | None => false
  | Some JNull => false
  | Some (JStr s) => negb (String.eqb s "")
  | Some _ => true
  end.

(** RecordValidator as the specification words it: required fields
    present, and every configured rule passing. *)
Definition valid (required : list string) (rules : list (string * config.Rule))
    (record : gmap string JSValue) : bool :=
  forallb (fun field => non_null_non_empty (record !! field)) required &&
  forallb (fun '(field, r) => rule_passes r (record !! field)) rules.


End Spec.

(** Value of the last entry of the record whose key matches one of the
    aliases, [null] when there is none. *)
Definition key_matches (aliases : list string) (e : string * JSValue) : bool :=
  existsb (alias_matches (trim (toLowerCase (fst e)))) aliases.

Definition last_match (aliases : list string) (entries : list (string * JSValue))
    : JSValue :=
  default JNull (last (map snd (List.filter (key_matches aliases) entries))).

(** Number of statements of a batch that the store rejected. *)
Fixpoint storeErrors (db : Db) (i : nat) (batch : list (gmap string JSValue)) : Z :=
  match batch with
  | [] => 0
  | record :: rest =>
      (match upsert db i record with Rejected => 1 | Resolved _ => 0 end
       + storeErrors db (S i) rest)%Z
  end.

(** Every statement that resolves returns the row it wrote ([RETURNING id]). *)
Definition returns_row (db : Db) : Prop :=
  forall i record, upsert db i record <> Resolved [].

(** Some entry of the mapping for target [t] has an alias matching the
    (lower-cased, trimmed) source field. *)
Definition target_hit (mapping : Mapping) (sourceFieldLower t : string) : bool :=
  existsb (fun e => String.eqb (fst e) t &&
                    existsb (alias_matches sourceFieldLower) (snd e))
          mapping.

(** ** Sample inputs *)

Module Samples.

(** Two source columns that both match the aliases of [name]. *)
Definition two_names : list (string * JSValue) :=
  [ ("name", JStr "A"); ("full_name", JStr "B") ].

(** A vendor record with a customer column only. *)
Definition customer_only : list (string * JSValue) :=
  [ ("Customer", JStr "Ada") ].

(** A record with both required fields, a malformed zip and a long state. *)
Definition bad_zip : list (string * JSValue) :=
  [ ("name", JStr "A"); ("id", JStr "1"); ("zip", JStr "abc");
    ("state", JStr "California") ].

(** A mapping whose required target [name] has no alias at all. *)
Definition no_alias_for_name : Mapping :=
  [ ("name", []); ("authId", ["id"]) ].

(** JSON text with its quotation marks. *)
Definition quoted (s : string) : string :=
  String (ascii_of_N 34) s +:+ String (ascii_of_N 34) "".

Definition zero_id_json : string :=
  "[{" +:+ quoted "name" +:+ ":" +:+ quoted "A" +:+ "," +:+ quoted "id" +:+ ":0}]".

(** A world in which the uploaded file has the given content, and
    [JSON.parse] of that content gives [parsed]. *)
Definition world_of (content : string) (parsed : Result JSValue) : World :=
  {| readFile := fun _ => Ok content;
     JSON_parse := fun s => if String.eqb s content then parsed else Throw SyntaxError;
     csv_rows := fun _ => Throw IOError;
     sheet_rows := fun _ => Throw IOError;
     unlinkSync := fun _ => Ok tt |}.

(** A store in which every statement but the one at index [failing]
    returns its row. *)
Definition db_failing_at (failing : nat) : Db :=
  {| connect_ok := true;
     begin_ok := true;
     upsert := fun i _ => if Nat.eqb i failing then Rejected else Resolved [Z.of_nat i];
     commit_ok := true |}.

(** A text file whose header has neither a tab nor a comma. *)
Definition one_column_text : string :=
  "name" +:+ String newline "Doe, John".

Definition customer (n i : string) : list (string * JSValue) :=
  [ ("name", JStr n); ("id", JStr i) ].

Definition customer_json (n i : string) : string :=
  "{" +:+ quoted "name" +:+ ":" +:+ quoted n +:+ "," +:+
  quoted "id" +:+ ":" +:+ quoted i +:+ "}".

Definition three_customers : list (list (string * JSValue)) :=
  [ customer "A" "1"; customer "B" "2"; customer "C" "3" ].

Definition three_customers_json : string :=
  "[" +:+ customer_json "A" "1" +:+ "," +:+ customer_json "B" "2" +:+ "," +:+
  customer_json "C" "3" +:+ "]".

(** The upload of that file as [customers.json]. *)
Definition three_customers_world : World :=
  world_of three_customers_json (Ok (JArr (map JObj three_customers))).

Definition customers_upload : UploadedFile :=
  {| path := "uploads/f1"; originalname := "customers.json" |}.

Definition three_customers_result : ProcessResult :=
  {| total := 3; valid := 3; invalid := 0;
     records := map (normalizeWith config.default_mapping) three_customers |}.

End Samples.

(** ** Auxiliary definitions for the further properties *)

(** The scan of [extname], from any state: characters are visited from the
    last to the first, each with its index. *)
Definition idx (i : nat) (c : ascii) : Z * ascii := (Z.of_nat i, c).

Definition ext_init : ExtScan :=
  {| startDot := -1; startPart := 0; end_ := -1;
     matchedSlash := true; preDotState := 0; stopped := false |}.

Definition scan_from (st : ExtScan) (l : list ascii) : ExtScan :=
  fold_left ext_step (rev (imap idx l)) st.

(** A character that is neither the dot nor the path separator. *)
Definition plain (c : ascii) : Prop := c <> "."%char /\ c <> "/"%char.

(** State of the scan once the dot of the extension has been passed and a
    character of the same path component has been seen before it. *)
Record ExtInv (d n : Z) (st : ExtScan) : Prop := {
  inv_dot : startDot st = d;
  inv_end : end_ st = n;
  inv_pre : preDotState st <> 0%Z
}.

Definition after_first (i : Z) : ExtScan :=
  {| startDot := -1; startPart := 0; end_ := i + 1;
     matchedSlash := false; preDotState := 0; stopped := false |}.

(** [values[index] ? values[index].trim() : null] *)
Definition cell (o : option string) : JSValue :=
  match o with
  | Some v => if negb (String.eqb v "") then JStr (trim v) else JNull
  | None => JNull
  end.

Fixpoint count_char (c : ascii) (s : string) : nat :=
  match s with
  | EmptyString => 0
  | String x s' => (if Ascii.eqb x c then 1 else 0) + count_char c s'
  end.

(** The table [fieldMappings] after a sequence of [POST /api/mappings]. *)
Definition postMappings (fieldMappings : Table) (reqs : list MappingRequest)
    : Table :=
  fold_left (fun reg req => snd (postMapping reg req)) reqs fieldMappings.

Module MoreSamples.

(** A mapping that names its key target [auth_id], not [authId]. *)
Definition snake_case_mapping : Mapping :=
  [ ("name", ["client_name"; "customer"]); ("auth_id", ["client_code"]) ].

(** A mapping with a target field named [__proto__]. *)
Definition proto_target_mapping : Mapping :=
  [ ("name", ["name"]); ("authId", ["id"]); ("__proto__", ["nickname"]) ].

(** A mapping whose target [name] lists the empty string as an alias. *)
Definition empty_alias_mapping : Mapping :=
  [ ("name", [""]); ("authId", ["id"]) ].

(** A JSON array whose second element is [null]. *)
Definition with_null_json : string :=
  "[" +:+ Samples.customer_json "A" "1" +:+ ",null]".

Definition with_null_world : World :=
  Samples.world_of with_null_json (Ok (JArr [JObj (Samples.customer "A" "1"); JNull])).

(** A JSON body cut short. *)
Definition broken_json_world : World :=
  Samples.world_of "[{" (Throw SyntaxError).

(** A tab-separated text file: header, a full row, a short row. *)
Definition two_rows_text : string :=
  "name" +:+ String tab "id" +:+ String newline
  ("Ada" +:+ String tab "7" +:+ String newline "Bob").

Definition notes_upload : UploadedFile :=
  {| path := "uploads/f2"; originalname := "notes.txt" |}.

(** A store whose COMMIT fails. *)
Definition db_commit_fails : Db :=
  {| connect_ok := true;
     begin_ok := true;
     upsert := fun i _ => Resolved [Z.of_nat i];
     commit_ok := false |}.

(** The request that names its mapping [__proto__]. *)
Definition proto_request (m : Mapping) : MappingRequest :=
  {| name := Some "__proto__"; mappings := Some m |}.

Definition acme_request : MappingRequest :=
  {| name := Some "acme"; mappings := Some Samples.no_alias_for_name |}.

End MoreSamples.

(** ** Auxiliary definitions for the proofs *)

(** The two loops of [normalizeRecord] read on the own properties alone:
    what they do once every write creates or updates an own property. *)
Definition assign_own (sourceFieldLower : string) (value : JSValue)
    (own : gmap string JSValue) (entry : string * list string)
    : gmap string JSValue :=
  if existsb (alias_matches sourceFieldLower) (snd entry)
  then <[fst entry := value]> own
  else own.

Definition process_own (mapping : Mapping)
    (own : gmap string JSValue) (entry : string * JSValue) : gmap string JSValue :=
  fold_left (assign_own (trim (toLowerCase (fst entry))) (snd entry)) mapping own.

(** No entry of the record matches an alias of the list. *)
Definition unmatched (aliases : list string) (entries : list (string * JSValue)) : bool :=
  negb (existsb (key_matches aliases) entries).

(** The null initialisation, from any object. *)
Definition init_from (keys : list string) (acc : RecObj) : RecObj :=
  fold_left (fun a k => rec_set a k JNull) keys acc.

(** A header name that is neither an array index nor [__proto__]: its
    write creates an own property that is enumerated after the earlier
    ones. *)
Definition ordinary_key (h : string) : bool :=
  negb (String.eqb h "__proto__") &&
  match array_index h with Some _ => false | None => true end.

(** Text within the ASCII range, where [trim] and [toLowerCase] are those
    of JavaScript. *)
Definition ascii_only (s : string) : bool :=
  forallb (fun c => (N_of_ascii c <? 128)%N) (list_ascii_of_string s).

(** * Properties *)

Example extname_examples :
  map extname ["a.CSV"; "dir.d/file"; ".bashrc"; "x.tar.gz"; "a.txt/"; ".."; "index."; "up/.x.Json"]
  = [".CSV"; ""; ""; ".gz"; ".txt"; ""; "."; ".Json"].
Proof. vm_compute. reflexivity. Qed.

Example zip_pattern_examples :
  map Spec.zip_pattern ["90210"; "90210-1234"; "9021"; "abc"; "90210-12"; "902101234"]
  = [true; true; false; false; false; false].
Proof. vm_compute. reflexivity. Qed.

(** ** Writes to an object *)

Lemma rec_set_insert (o : RecObj) (key : string) (v : JSValue) :
  key <> "__proto__" \/ rec_proto o = NullPrototype ->
  rec_set o key v
  = {| rec_own := <[key := v]> (rec_own o); rec_proto := rec_proto o |}.
Proof.
  intros Hk. unfold rec_set, proto_setter.
  destruct (String.eqb_spec key "__proto__") as [->|Hne]; simpl; [|done].
  destruct Hk as [Hk|Hk]; [done|]. rewrite Hk. simpl. by rewrite andb_false_r.
Qed.

Lemma rec_set_own_other (o : RecObj) (key t : string) (v : JSValue) :
  t <> key -> rec_own (rec_set o key v) !! t = rec_own o !! t.
Proof.
  intros Hne. unfold rec_set. destruct (proto_setter _ _ _ _); simpl; [done|].
  by rewrite lookup_insert_ne.
Qed.

Lemma rec_set_keeps_null (o : RecObj) (key : string) (v : JSValue) :
  rec_proto o = NullPrototype -> rec_proto (rec_set o key v) = NullPrototype.
Proof. intros Hp. rewrite rec_set_insert by (by right). done. Qed.

(** The write [normalizedRecord.__proto__ = null] on a fresh object. *)
Lemma rec_set_proto_null (o : RecObj) :
  rec_own o !! "__proto__" = None -> rec_proto o = ObjectPrototype ->
  rec_set o "__proto__" JNull
  = {| rec_own := rec_own o; rec_proto := NullPrototype |}.
Proof.
  intros Hown Hp. unfold rec_set, proto_setter. rewrite Hp.
  rewrite bool_decide_eq_false_2; [done|]. rewrite Hown. by intros [? ?].
Qed.

Section InitNulls.
Implicit Types (l : list string) (acc : RecObj) (t : string).

Lemma init_lookup_other l acc t :
  t <> "__proto__" ->
  rec_own (init_from l acc) !! t
  = if existsb (String.eqb t) l then Some JNull else rec_own acc !! t.
Proof.
  intros Ht. revert acc. induction l as [|k l IH]; intros acc; simpl; [done|].
  unfold init_from in *. simpl. rewrite IH.
  destruct (existsb (String.eqb t) l); [by rewrite orb_true_r|].
  rewrite orb_false_r. destruct (String.eqb_spec t k) as [->|Hne].
  - rewrite rec_set_insert by (by left). simpl. by rewrite lookup_insert_eq.
  - by rewrite rec_set_own_other.
Qed.

Lemma init_proto_null l acc :
  rec_proto acc = NullPrototype -> rec_proto (init_from l acc) = NullPrototype.
Proof.
  revert acc. induction l as [|k l IH]; intros acc Hp; [done|].
  unfold init_from in *. simpl. apply IH. by apply rec_set_keeps_null.
Qed.

Lemma init_without_proto_key l acc :
  ~ In "__proto__" l ->
  rec_proto (init_from l acc) = rec_proto acc /\
  rec_own (init_from l acc) !! "__proto__" = rec_own acc !! "__proto__".
Proof.
  revert acc. induction l as [|k l IH]; intros acc Hnot; [done|].
  unfold init_from in *. simpl.
  assert (Hk : k <> "__proto__") by (intros ->; apply Hnot; by left).
  destruct (IH (rec_set acc k JNull)) as [Hp Ho]; [intros Hin; apply Hnot; by right|].
  rewrite Hp, Ho, rec_set_insert by (by left). simpl. by rewrite lookup_insert_ne.
Qed.

Lemma init_with_proto_key l acc :
  rec_own acc !! "__proto__" = None -> rec_proto acc = ObjectPrototype ->
  In "__proto__" l ->
  rec_proto (init_from l acc) = NullPrototype.
Proof.
  revert acc. induction l as [|k l IH]; intros acc Hown Hp Hin; [done|].
  unfold init_from in *. simpl. destruct (String.eqb_spec k "__proto__") as [->|Hne].
  - rewrite rec_set_proto_null by done. by apply init_proto_null.
  - destruct Hin as [->|Hin]; [done|].
    apply IH; [| |done]; rewrite rec_set_insert by (by left); simpl; [|done].
    by rewrite lookup_insert_ne.
Qed.

Lemma init_proto_key_absent l acc :
  NoDup l ->
  rec_own acc !! "__proto__" = None -> rec_proto acc = ObjectPrototype ->
  rec_own (init_from l acc) !! "__proto__" = None.
Proof.
  revert acc. induction l as [|k l IH]; intros acc Hnd Hown Hp; [done|].
  unfold init_from in *. simpl. apply NoDup_cons in Hnd as [Hk Hnd].
  destruct (String.eqb_spec k "__proto__") as [->|Hne].
  - rewrite rec_set_proto_null by done.
    destruct (init_without_proto_key l {| rec_own := rec_own acc; rec_proto := NullPrototype |})
      as [_ Ho]; [by rewrite <- list_elem_of_In|].
    unfold init_from in Ho. by rewrite Ho.
  - apply IH; [done| |]; rewrite rec_set_insert by (by left); simpl; [|done].
    by rewrite lookup_insert_ne.
Qed.

Lemma init_proto_plain l acc :
  rec_proto acc = ObjectPrototype \/ rec_proto acc = NullPrototype ->
  rec_proto (init_from l acc) = ObjectPrototype \/ rec_proto (init_from l acc) = NullPrototype.
Proof.
  revert acc. induction l as [|k l IH]; intros acc Hp; [done|].
  unfold init_from in *. simpl. apply IH. unfold rec_set, proto_setter.
  destruct (_ && _); simpl; auto.
Qed.

End InitNulls.

(** ** Field mapping *)

Section Normalize.
Implicit Types (mapping : Mapping) (acc : gmap string JSValue) (o : RecObj).
Implicit Types (entries : list (string * JSValue)) (t : string).

(** One pass of the inner loop on the own properties: a target is
    overwritten exactly when one of its aliases matches the source field. *)
Lemma assign_lookup s v mapping acc t :
  fold_left (assign_own s v) mapping acc !! t
  = if target_hit mapping s t then Some v else acc !! t.
Proof.
  revert acc. induction mapping as [|[t' al] m IH]; intros acc; simpl; [done|].
  rewrite IH. unfold assign_own at 1. simpl. destruct (target_hit m s t) eqn:Hm.
  - by rewrite orb_true_r.
  - rewrite orb_false_r. destruct (existsb (alias_matches s) al) eqn:Hal.
    + rewrite andb_true_r. destruct (String.eqb_spec t' t) as [->|Hne].
      * by rewrite lookup_insert_eq.
      * by rewrite lookup_insert_ne.
    + by rewrite andb_false_r.
Qed.

(** The whole outer loop, read at one target: the last entry that hits
    the target decides; with no hit the initial value stays. *)
Lemma entries_lookup mapping entries acc t :
  fold_left (process_own mapping) entries acc !! t
  = match last (List.filter (fun e => target_hit mapping (trim (toLowerCase (fst e))) t)
                            entries) with
    | Some e => Some (snd e)
    | None => acc !! t
    end.
Proof.
  revert acc. induction entries as [|[k v] es IH]; intros acc; simpl; [done|].
  rewrite IH. unfold process_own. simpl. rewrite assign_lookup.
  destruct (target_hit mapping (trim (toLowerCase k)) t); simpl; [|done].
  rewrite last_cons. by destruct (last _).
Qed.

(** Once a [__proto__] target has had its null, every write of the loops
    creates or updates an own property. *)
Lemma assign_fold s v mapping o :
  (In "__proto__" (map fst mapping) -> rec_proto o = NullPrototype) ->
  fold_left (assign_target s v) mapping o
  = {| rec_own := fold_left (assign_own s v) mapping (rec_own o);
       rec_proto := rec_proto o |}.
Proof.
  revert o. induction mapping as [|[t' al] m IH]; intros o Hp; simpl.
  - by destruct o.
  - unfold assign_own at 2. simpl. destruct (existsb (alias_matches s) al).
    + rewrite rec_set_insert.
      * rewrite IH; [done|]. simpl. intros Hin. apply Hp. by right.
      * destruct (String.eqb_spec t' "__proto__") as [->|Hne]; [|by left].
        right. apply Hp. by left.
    + apply IH. intros Hin. apply Hp. by right.
Qed.

Lemma entries_fold mapping entries o :
  (In "__proto__" (map fst mapping) -> rec_proto o = NullPrototype) ->
  fold_left (process_entry mapping) entries o
  = {| rec_own := fold_left (process_own mapping) entries (rec_own o);
       rec_proto := rec_proto o |}.
Proof.
  revert o. induction entries as [|[k v] es IH]; intros o Hp; simpl.
  - by destruct o.
  - rewrite assign_fold by done. rewrite IH by done. reflexivity.
Qed.

Lemma init_nulls_proto mapping :
  In "__proto__" (map fst mapping) -> rec_proto (init_nulls mapping) = NullPrototype.
Proof. intros Hin. by apply (init_with_proto_key (map fst mapping)). Qed.

Lemma normalizeWith_own mapping entries :
  normalizeWith mapping entries
  = fold_left (process_own mapping) entries (rec_own (init_nulls mapping)).
Proof.
  unfold normalizeWith, normalize_obj.
  rewrite entries_fold by apply init_nulls_proto. reflexivity.
Qed.

(** The prototype of a normalized record is [Object.prototype] or null,
    never a value of the record: its required fields are read from its
    own properties. *)
Lemma normalize_obj_proto mapping entries :
  rec_proto (normalize_obj mapping entries) = ObjectPrototype \/
  rec_proto (normalize_obj mapping entries) = NullPrototype.
Proof.
  unfold normalize_obj. rewrite entries_fold by apply init_nulls_proto. simpl.
  apply (init_proto_plain (map fst mapping)). by left.
Qed.

Lemma init_nulls_lookup mapping t :
  t <> "__proto__" ->
  rec_own (init_nulls mapping) !! t
  = if existsb (String.eqb t) (map fst mapping) then Some JNull else None.
Proof.
  intros Ht. unfold init_nulls, init_keys.
  rewrite (init_lookup_other (map fst mapping)) by done. simpl.
  by rewrite lookup_empty.
Qed.

Lemma init_nulls_lookup_proto mapping :
  NoDup (map fst mapping) -> rec_own (init_nulls mapping) !! "__proto__" = None.
Proof. intros Hnd. by apply (init_proto_key_absent (map fst mapping)). Qed.

Lemma init_keys_values (l : list string) t (x : JSValue) :
  rec_own (init_keys l) !! t = Some x -> x = JNull.
Proof.
  unfold init_keys.
  assert (Hgen : forall o,
             (forall k y, rec_own o !! k = Some y -> y = JNull) ->
             forall k y, rec_own (init_from l o) !! k = Some y -> y = JNull).
  { induction l as [|k l IH]; intros o Ho; [done|]. unfold init_from in *. simpl.
    apply IH. intros k' y. unfold rec_set. destruct (proto_setter _ _ _ _); simpl.
    - apply Ho.
    - destruct (decide (k = k')) as [->|Hne].
      + rewrite lookup_insert_eq. by intros [= <-].
      + rewrite lookup_insert_ne by done. apply Ho. }
  apply (Hgen {| rec_own := ∅; rec_proto := ObjectPrototype |}).
  intros k y. simpl. by rewrite lookup_empty.
Qed.

Lemma target_hit_unique mapping s t aliases :
  NoDup (map fst mapping) -> In (t, aliases) mapping ->
  target_hit mapping s t = existsb (alias_matches s) aliases.
Proof.
  induction mapping as [|[t' al] m IH]; simpl; [done|].
  intros Hnd [Heq|Hin].
  - inversion Heq; subst. rewrite String.eqb_refl. simpl.
    apply NoDup_cons in Hnd as [Hnotin _].
    assert (Hm : target_hit m s t = false).
    { apply not_true_is_false. intros Hhit.
      apply existsb_exists in Hhit as [[t2 al2] [Hin2 Hb]]. simpl in Hb.
      apply andb_true_iff in Hb as [Hb _]. apply String.eqb_eq in Hb. subst.
      apply Hnotin, list_elem_of_In. apply (in_map fst _ _ Hin2). }
    fold (target_hit m s t). rewrite Hm. by rewrite orb_false_r.
  - apply NoDup_cons in Hnd as [Hnotin Hnd].
    assert (Hne : String.eqb t' t = false).
    { apply String.eqb_neq. intros ->. apply Hnotin, list_elem_of_In.
      apply (in_map fst _ _ Hin). }
    rewrite Hne. simpl. by apply IH.
Qed.

Lemma target_hit_In mapping s t :
  target_hit mapping s t = true -> In t (map fst mapping).
Proof.
  intros Hhit. apply existsb_exists in Hhit as [[t' al] [Hin Hb]]. simpl in Hb.
  apply andb_true_iff in Hb as [Hb _]. apply String.eqb_eq in Hb. subst.
  apply (in_map fst _ _ Hin).
Qed.
End Normalize.

Lemma last_map_snd {A B} (l : list (A * B)) :
  last (map snd l) = option_map snd (last l).
Proof.
  induction l as [|x l IH]; [done|].
  simpl map. rewrite !last_cons, IH. by destruct (last l).
Qed.

Lemma existsb_eqb_In (t : string) (l : list string) :
  In t l -> existsb (String.eqb t) l = true.
Proof.
  intros Hin. apply existsb_exists. exists t. split; [done|]. apply String.eqb_refl.
Qed.

Lemma existsb_eqb_not_In (t : string) (l : list string) :
  ~ In t l -> existsb (String.eqb t) l = false.
Proof.
  intros Hnot. apply not_true_is_false. intros Hex.
  apply existsb_exists in Hex as [x [Hin Hx]]. apply String.eqb_eq in Hx. by subst.
Qed.

Lemma filter_nil_unmatched (aliases : list string) (entries : list (string * JSValue)) :
  unmatched aliases entries = true ->
  List.filter (key_matches aliases) entries = [].
Proof.
  unfold unmatched. rewrite negb_true_iff. induction entries as [|e es IH]; [done|].
  cbn [List.filter existsb]. intros Hex. apply orb_false_iff in Hex as [He Hes].
  rewrite He. by apply IH.
Qed.

Lemma filter_last_matched (aliases : list string) (entries : list (string * JSValue)) :
  unmatched aliases entries = false ->
  exists e, last (List.filter (key_matches aliases) entries) = Some e.
Proof.
  unfold unmatched. rewrite negb_false_iff. intros Hex.
  apply existsb_exists in Hex as [e [Hin He]].
  assert (Hf : In e (List.filter (key_matches aliases) entries))
    by (apply List.filter_In; by split).
  destruct (last _) as [x|] eqn:Hl; [by eexists|].
  apply last_None in Hl. rewrite Hl in Hf. destruct Hf.
Qed.

Lemma existsb_Permutation {A} (p : A -> bool) (l l' : list A) :
  Permutation l l' -> existsb p l = existsb p l'.
Proof.
  induction 1 as [|x l l' _ IH|x y l|l l' l'' _ IH1 _ IH2]; simpl.
  - reflexivity.
  - by rewrite IH.
  - destruct (p x), (p y); reflexivity.
  - by rewrite IH1.
Qed.

(** C1 (as the code has it): for each target field the value of the LAST
    source field, in the record's key order, whose key matches any alias of
    the target is the one assigned: a later matching key overwrites an
    earlier one, and the order of the alias list plays no part.  (With no
    matching key the target holds null; a target named [__proto__] is
    then absent.) *)
Theorem normalize_last_match_wins
    (mapping : Mapping) (entries : list (string * JSValue))
    (t : string) (aliases : list string) :
  NoDup (map fst mapping) ->
  In (t, aliases) mapping ->
  normalizeWith mapping entries !! t
    = (if String.eqb t "__proto__" && unmatched aliases entries
       then None
       else Some (last_match aliases entries)) /\
  (forall aliases', Permutation aliases aliases' ->
     last_match aliases' entries = last_match aliases entries).
Proof.
  intros Hnd Hin. split.
  - rewrite normalizeWith_own, entries_lookup. unfold last_match.
    rewrite (List.filter_ext _ (key_matches aliases)).
    2:{ intros e. unfold key_matches. by apply target_hit_unique. }
    destruct (unmatched aliases entries) eqn:Hun.
    + rewrite filter_nil_unmatched by done. simpl. rewrite andb_true_r.
      destruct (String.eqb_spec t "__proto__") as [->|Hne].
      * by apply init_nulls_lookup_proto.
      * rewrite init_nulls_lookup, existsb_eqb_In; [done| |done].
        apply (in_map fst _ _ Hin).
    + rewrite andb_false_r. destruct (filter_last_matched _ _ Hun) as [e He].
      rewrite He, last_map_snd, He. reflexivity.
  - intros aliases' Hperm. unfold last_match.
    rewrite (List.filter_ext (key_matches aliases') (key_matches aliases)); [done|].
    intros e. unfold key_matches. symmetry. by apply existsb_Permutation.
Qed.

Lemma normalize_last_match_wins_witness :
  normalizeWith config.default_mapping Samples.two_names !! "name"
  = (if String.eqb "name" "__proto__" &&
        unmatched ["name"; "full_name"; "customer_name"; "client_name"] Samples.two_names
     then None
     else Some (last_match ["name"; "full_name"; "customer_name"; "client_name"]
                           Samples.two_names)) /\
  (forall aliases',
     Permutation ["name"; "full_name"; "customer_name"; "client_name"] aliases' ->
     last_match aliases' Samples.two_names
     = last_match ["name"; "full_name"; "customer_name"; "client_name"]
                  Samples.two_names).
Proof.
  apply (normalize_last_match_wins config.default_mapping Samples.two_names "name").
  - apply (bool_decide_unpack _). vm_compute. exact I.
  - simpl. left. reflexivity.
Defined.

(** C1 as worded fails: with the default mapping, a record with the
    columns [name] and [full_name] gets the value of [full_name], the later
    key, where first-match-wins selects the value of [name]. *)
Lemma later_key_overwrites_first_match :
  normalizeRecord config.fieldMappings (JObj Samples.two_names) "default"
    = Ok (normalizeWith config.default_mapping Samples.two_names) /\
  normalizeWith config.default_mapping Samples.two_names !! "name" = Some (JStr "B") /\
  Spec.first_match ["name"; "full_name"; "customer_name"; "client_name"]
                   Samples.two_names = JStr "A".
Proof. repeat split; vm_compute; reflexivity. Qed.

Lemma normalize_lookup (mapping : Mapping) (entries : list (string * JSValue)) (t : string) :
  normalizeWith mapping entries !! t
  = match last (List.filter (fun e => target_hit mapping (trim (toLowerCase (fst e))) t)
                            entries) with
    | Some e => Some (snd e)
    | None => rec_own (init_nulls mapping) !! t
    end.
Proof. rewrite normalizeWith_own. apply entries_lookup. Qed.

Lemma init_nulls_keys (mapping : Mapping) (t : string) :
  is_Some (rec_own (init_nulls mapping) !! t) -> In t (map fst mapping).
Proof.
  intros Hs. destruct (String.eqb_spec t "__proto__") as [->|Hne].
  - destruct (in_dec string_dec "__proto__" (map fst mapping)) as [Hin|Hnot]; [done|].
    destruct (init_without_proto_key (map fst mapping)
                {| rec_own := ∅; rec_proto := ObjectPrototype |} Hnot) as [_ Ho].
    change (rec_own (init_nulls mapping) !! "__proto__")
      with (rec_own (init_from (map fst mapping)
                       {| rec_own := ∅; rec_proto := ObjectPrototype |}) !! "__proto__") in Hs.
    rewrite Ho in Hs. simpl in Hs. rewrite lookup_empty in Hs. by destruct Hs.
  - rewrite init_nulls_lookup in Hs by done.
    destruct (existsb (String.eqb t) (map fst mapping)) eqn:Hex; [|by destruct Hs].
    apply existsb_exists in Hex as [x [Hin Hx]]. apply String.eqb_eq in Hx. by subst.
Qed.

Lemma normalize_keys_are_targets
    (mapping : Mapping) (entries : list (string * JSValue)) (t : string) :
  is_Some (normalizeWith mapping entries !! t) -> In t (map fst mapping).
Proof.
  rewrite normalize_lookup. destruct (last _) as [e|] eqn:Hl.
  - intros _. apply last_Some_elem_of, list_elem_of_In, List.filter_In in Hl as [_ Hh].
    by apply target_hit_In in Hh.
  - apply init_nulls_keys.
Qed.

Lemma normalize_has_target
    (mapping : Mapping) (entries : list (string * JSValue)) (t : string) :
  In t (map fst mapping) -> t <> "__proto__" ->
  is_Some (normalizeWith mapping entries !! t).
Proof.
  intros Hin Hne. rewrite normalize_lookup. destruct (last _) as [e|]; [by eexists|].
  rewrite init_nulls_lookup, existsb_eqb_In by done. by eexists.
Qed.

(** C6, at the input where the code falls short of it: a registered
    mapping with a target field named [__proto__].  The null written for
    that target replaces the record's prototype instead of creating the
    key, so the normalized record of a record that does not match it has
    the keys [name] and [authId] only. *)
Theorem proto_target_is_omitted :
  normalizeRecord
    (snd (postMapping config.fieldMappings
            {| name := Some "acme"; mappings := Some MoreSamples.proto_target_mapping |}))
    (JObj (Samples.customer "A" "1")) "acme"
    = Ok (normalizeWith MoreSamples.proto_target_mapping (Samples.customer "A" "1")) /\
  map fst MoreSamples.proto_target_mapping = ["name"; "authId"; "__proto__"] /\
  normalizeWith MoreSamples.proto_target_mapping (Samples.customer "A" "1")
    = <["authId" := JStr "1"]> (<["name" := JStr "A"]> ∅) /\
  normalizeWith MoreSamples.proto_target_mapping (Samples.customer "A" "1")
    !! "__proto__" = None.
Proof. repeat split; vm_compute; reflexivity. Qed.

(** ** Validation *)

Lemma isValid_spec (record : gmap string JSValue) :
  isValid record = true <->
  forall field, In field config.requiredFields -> truthy_prop (record !! field) = true.
Proof. unfold isValid. apply forallb_forall. Qed.

Lemma forallb_ext_in_required (f g : string -> bool) :
  (forall x, In x config.requiredFields -> f x = g x) ->
  forallb f config.requiredFields = forallb g config.requiredFields.
Proof.
  intros H. induction config.requiredFields as [|x l IH]; [done|]. simpl.
  rewrite (H x) by (by left). rewrite IH; [done|]. intros y Hy. apply H. by right.
Qed.

Lemma isValid_insert_other (record : gmap string JSValue) (field : string) (v : JSValue) :
  ~ In field config.requiredFields ->
  isValid (<[field := v]> record) = isValid record.
Proof.
  intros Hnot. unfold isValid. apply forallb_ext_in_required.
  intros f Hf. rewrite lookup_insert_ne; [done|]. intros ->. by apply Hnot.
Qed.

(** C2 (as the code has it): a normalized record is valid exactly when
    every required field holds a truthy value; the per-field rules of the
    configuration are not consulted, so the content of a field that is not
    required never changes the classification. *)
Theorem valid_iff_required_fields_truthy (record : gmap string JSValue) :
  (isValid record = true <->
   forall field, In field config.requiredFields ->
                 truthy_prop (record !! field) = true) /\
  (forall field v, ~ In field config.requiredFields ->
                   isValid (<[field := v]> record) = isValid record).
Proof.
  split; [apply isValid_spec|]. intros field v Hnot. by apply isValid_insert_other.
Qed.

Lemma valid_iff_required_fields_truthy_witness :
  isValid (normalizeWith config.default_mapping Samples.bad_zip) = true /\
  isValid (<["zip" := JStr "not a zip"]>
             (normalizeWith config.default_mapping Samples.bad_zip))
  = isValid (normalizeWith config.default_mapping Samples.bad_zip).
Proof.
  destruct (valid_iff_required_fields_truthy
              (normalizeWith config.default_mapping Samples.bad_zip)) as [Hiff Hother].
  split.
  - apply Hiff. intros field [<-|[<-|[]]]; vm_compute; reflexivity.
  - apply Hother. intros [H|[H|[]]]; discriminate H.
Defined.

(** C2 as worded fails: a record with both required fields, zip [abc]
    and state [California] is kept as valid, although the zip pattern and
    the state length rule of the configuration both reject it. *)
Lemma rules_are_not_applied :
  isValid (normalizeWith config.default_mapping Samples.bad_zip) = true /\
  Spec.valid config.requiredFields config.rules
             (normalizeWith config.default_mapping Samples.bad_zip) = false /\
  Spec.rule_passes config.pattern_zip
    (normalizeWith config.default_mapping Samples.bad_zip !! "zip") = false /\
  Spec.rule_passes (config.maxLength 2)
    (normalizeWith config.default_mapping Samples.bad_zip !! "state") = false.
Proof. repeat split; vm_compute; reflexivity. Qed.

(** C10: the required-field check is a truthiness test.  A required field
    holding the empty string, the number 0 or [false] makes the record
    invalid, exactly as a null does, although 0 and [false] are neither
    null nor empty. *)
Theorem required_check_is_truthiness
    (record : gmap string JSValue) (field : string) (v : JSValue) :
  In field config.requiredFields ->
  v = JStr "" \/ v = JNum 0 \/ v = JBool false ->
  isValid (<[field := v]> record) = false /\
  isValid (<[field := v]> record) = isValid (<[field := JNull]> record) /\
  (v <> JStr "" -> Spec.non_null_non_empty (Some v) = true).
Proof.
  intros Hreq Hv.
  assert (Hfalsy : truthy v = false) by (destruct Hv as [->|[->| ->]]; reflexivity).
  assert (Hinv : forall x, truthy x = false -> isValid (<[field := x]> record) = false).
  { intros x Hx. apply not_true_is_false. intros Hvalid.
    apply isValid_spec with (field := field) in Hvalid; [|done].
    rewrite lookup_insert_eq in Hvalid. simpl in Hvalid. congruence. }
  split; [by apply Hinv|]. split.
  - rewrite !Hinv; done.
  - intros Hne. destruct Hv as [->|[->| ->]]; [done| |]; reflexivity.
Qed.

Lemma required_check_is_truthiness_witness :
  isValid (<["authId" := JNum 0]> (normalizeWith config.default_mapping Samples.bad_zip))
    = false /\
  isValid (<["authId" := JNum 0]> (normalizeWith config.default_mapping Samples.bad_zip))
    = isValid (<["authId" := JNull]> (normalizeWith config.default_mapping Samples.bad_zip)) /\
  (JNum 0 <> JStr "" -> Spec.non_null_non_empty (Some (JNum 0)) = true).
Proof.
  apply (required_check_is_truthiness _ "authId" (JNum 0)).
  - simpl. right. left. reflexivity.
  - right. left. reflexivity.
Defined.

(** A JSON upload whose [id] is the number 0 is counted invalid. *)
Example zero_id_is_invalid :
  processFile (Samples.world_of Samples.zero_id_json
                 (Ok (JArr [JObj [("name", JStr "A"); ("id", JNum 0)]])))
              config.fieldMappings "uploads/f1" "customers.json" None
  = Ok {| total := 1; valid := 0; invalid := 1; records := [] |}.
Proof. vm_compute. reflexivity. Qed.

(** ** Counting *)

Lemma len_filter_le {A} (p : A -> bool) (l : list A) :
  (0 <= len (List.filter p l) <= len l)%Z.
Proof.
  unfold len. pose proof (List.filter_length_le p l). lia.
Qed.

Lemma mapR_length {A B} (f : A -> Result B) (l : list A) (bs : list B) :
  mapR f l = Ok bs -> List.length bs = List.length l.
Proof.
  revert bs. induction l as [|a l IH]; intros bs; simpl.
  - intros [= <-]. reflexivity.
  - destruct (f a) as [b|e]; simpl; [|discriminate].
    destruct (mapR f l) as [bs'|e]; simpl; [|discriminate].
    intros [= <-]. simpl. f_equal. by apply IH.
Qed.

Lemma mapR_total {A B} (f : A -> Result B) (l : list A) :
  (forall a, In a l -> exists b, f a = Ok b) ->
  exists bs, mapR f l = Ok bs.
Proof.
  induction l as [|a l IH]; intros Hall; simpl; [by eexists|].
  destruct (Hall a) as [b Hb]; [by left|]. rewrite Hb. simpl.
  destruct IH as [bs Hbs]; [intros x Hx; apply Hall; by right|].
  rewrite Hbs. simpl. by eexists.
Qed.

(** Whenever the Map&Validate stage produces counts, they add up. *)
Lemma mapValidate_counts (fieldMappings : Table)
    (parsed : list JSValue) (source : string) (r : ProcessResult) :
  mapValidate fieldMappings parsed source = Ok r ->
  total r = len parsed /\ (valid r + invalid r = total r)%Z /\
  (0 <= valid r <= total r)%Z /\ valid r = len (records r).
Proof.
  unfold mapValidate. destruct (mapR _ parsed) as [ns|e] eqn:Hmap; simpl; [|discriminate].
  intros [= <-]. simpl. apply mapR_length in Hmap.
  pose proof (len_filter_le isValid ns) as Hle. unfold len in *. rewrite Hmap in Hle.
  repeat split; lia.
Qed.

(** C5: for every sequence of parsed records, the Map&Validate stage
    produces counts with valid + invalid = total, where total is the
    number of parsed records. *)
Theorem valid_plus_invalid_is_total
    (fieldMappings : Table) (source : string) (mapping : Mapping)
    (raws : list (list (string * JSValue))) :
  select_mapping fieldMappings source = Some (FMapping mapping) ->
  exists r : ProcessResult,
    mapValidate fieldMappings (map JObj raws) source = Ok r /\
    total r = len raws /\
    (valid r + invalid r = total r)%Z /\
    (0 <= valid r)%Z /\ (0 <= invalid r)%Z.
Proof.
  intros Hsel.
  destruct (mapR_total (fun record => normalizeRecord fieldMappings record source)
                       (map JObj raws)) as [ns Hns].
  { intros a Ha. apply in_map_iff in Ha as [props [<- _]].
    unfold normalizeRecord. rewrite Hsel. simpl. by eexists. }
  assert (Hrun : exists r, mapValidate fieldMappings (map JObj raws) source = Ok r).
  { unfold mapValidate. rewrite Hns. simpl. by eexists. }
  destruct Hrun as [r Hr]. exists r. split; [done|].
  apply mapValidate_counts in Hr as (Ht & Hsum & Hv & _).
  unfold len in *. rewrite length_map in Ht. repeat split; lia.
Qed.

Lemma valid_plus_invalid_is_total_witness :
  exists r : ProcessResult,
    mapValidate config.fieldMappings
      (map JObj [Samples.two_names; Samples.customer_only]) "acme" = Ok r /\
    total r = len [Samples.two_names; Samples.customer_only] /\
    (valid r + invalid r = total r)%Z /\
    (0 <= valid r)%Z /\ (0 <= invalid r)%Z.
Proof.
  apply (valid_plus_invalid_is_total config.fieldMappings "acme" config.default_mapping).
  vm_compute. reflexivity.
Defined.

(** ** Registration of mappings *)

Lemma table_set_plain (fieldMappings : Table) (n : string) (m : Mapping) :
  n <> "__proto__" ->
  table_set fieldMappings n m
  = {| table_own := <[n := m]> (table_own fieldMappings);
       table_proto := table_proto fieldMappings |}.
Proof.
  intros Hn. unfold table_set. by destruct (String.eqb_spec n "__proto__").
Qed.

Lemma table_get_own (fieldMappings : Table) (k : string) (m : Mapping) :
  table_own fieldMappings !! k = Some m -> table_get fieldMappings k = Some (FMapping m).
Proof. intros Hk. unfold table_get. by rewrite Hk. Qed.




(** ** Parsers *)

(** C7 (as the code has it): for well-formed JSON the parser never fails;
    an array root is returned as it is, and every other root, an object as
    well as a string, number, boolean or null, is wrapped into a
    one-element sequence. *)
Theorem parseJSON_wraps_every_non_array
    (w : World) (filePath data : string) (jsonData : JSValue) :
  readFile w filePath = Ok data ->
  JSON_parse w data = Ok jsonData ->
  (exists parsed, parseJSON w filePath = Ok parsed) /\
  (forall items, jsonData = JArr items -> parseJSON w filePath = Ok items) /\
  ((forall items, jsonData <> JArr items) -> parseJSON w filePath = Ok [jsonData]).
Proof.
  intros Hread Hparse. unfold parseJSON. rewrite Hread. simpl. rewrite Hparse. simpl.
  split; [by eexists|]. split.
  - by intros items ->.
  - intros Hnot. destruct jsonData; try reflexivity. by destruct (Hnot items).
Qed.

Lemma parseJSON_wraps_every_non_array_witness :
  (exists parsed, parseJSON (Samples.world_of "true" (Ok (JBool true))) "uploads/f1"
                  = Ok parsed) /\
  (forall items, JBool true = JArr items ->
     parseJSON (Samples.world_of "true" (Ok (JBool true))) "uploads/f1" = Ok items) /\
  ((forall items, JBool true <> JArr items) ->
     parseJSON (Samples.world_of "true" (Ok (JBool true))) "uploads/f1" = Ok [JBool true]).
Proof.
  apply (parseJSON_wraps_every_non_array
           (Samples.world_of "true" (Ok (JBool true))) "uploads/f1" "true" (JBool true)).
  - reflexivity.
  - reflexivity.
Defined.

(** C7 as worded fails: a document whose root is the number 42 is not a
    parse error; it is parsed as one record, and the run ends with a result
    counting one invalid record. *)
Lemma number_root_is_one_record :
  parseJSON (Samples.world_of "42" (Ok (JNum 42))) "uploads/f1" = Ok [JNum 42] /\
  processFile (Samples.world_of "42" (Ok (JNum 42))) config.fieldMappings
              "uploads/f1" "answer.json" None
  = Ok {| total := 1; valid := 0; invalid := 1; records := [] |}.
Proof. split; vm_compute; reflexivity. Qed.

(** C8 (as the code has it): the delimiter is the comma only when the
    header line has a comma and no tab; it is the tab when the header has a
    tab, and also when it has neither. *)
Theorem tab_unless_comma_without_tab (data : string) :
  (includes_char (firstLine data) tab = true -> detectDelimiter data = tab) /\
  (includes_char (firstLine data) tab = false ->
   includes_char (firstLine data) comma = true -> detectDelimiter data = comma) /\
  (includes_char (firstLine data) tab = false ->
   includes_char (firstLine data) comma = false -> detectDelimiter data = tab).
Proof.
  unfold detectDelimiter. repeat split.
  - intros ->. by rewrite andb_false_r.
  - by intros -> ->.
  - by intros -> ->.
Qed.

Lemma tab_unless_comma_without_tab_witness :
  detectDelimiter "name,id" = comma /\ detectDelimiter Samples.one_column_text = tab.
Proof.
  split.
  - apply (proj1 (proj2 (tab_unless_comma_without_tab "name,id"))); reflexivity.
  - apply (proj2 (proj2 (tab_unless_comma_without_tab Samples.one_column_text)));
      reflexivity.
Defined.

(** C8 as worded fails: for a header with neither tab nor comma the
    delimiter is the tab, not the comma, so a later line with a comma is
    kept whole. *)
Lemma plain_header_gives_tab :
  includes_char (firstLine Samples.one_column_text) tab = false /\
  includes_char (firstLine Samples.one_column_text) comma = false /\
  detectDelimiter Samples.one_column_text = tab /\
  detectDelimiter Samples.one_column_text <> comma /\
  parseText_data Samples.one_column_text = [JObj [("name", JStr "Doe, John")]].
Proof. repeat split; try (vm_compute; reflexivity). vm_compute. discriminate. Qed.

(** ** The extension of a file name *)

Lemma extname_scan path :
  extname path =
  let st := scan_from ext_init (list_ascii_of_string path) in
  if ((startDot st =? -1) || (end_ st =? -1) || (preDotState st =? 0) ||
      ((preDotState st =? 1) && (startDot st =? end_ st - 1) &&
       (startDot st =? startPart st + 1)))%Z
  then "" else slice path (startDot st) (end_ st).
Proof. reflexivity. Qed.

Lemma scan_from_snoc st l c :
  scan_from st (l ++ [c]) = scan_from (ext_step st (Z.of_nat (List.length l), c)) l.
Proof.
  unfold scan_from. rewrite imap_app, rev_app_distr. simpl.
  unfold idx at 1. by rewrite Nat.add_0_r.
Qed.

Lemma ext_step_plain st i c :
  plain c -> stopped st = false -> startDot st = (-1)%Z -> end_ st <> (-1)%Z ->
  ext_step st (i, c) = st.
Proof.
  intros [Hd Hs] Hst Hsd He. unfold ext_step. rewrite Hst.
  apply Ascii.eqb_neq in Hd, Hs. rewrite Hs, Hd.
  apply Z.eqb_neq in He. rewrite He. rewrite Hsd. simpl. reflexivity.
Qed.

Lemma scan_from_plain st pre le :
  Forall plain le -> stopped st = false -> startDot st = (-1)%Z -> end_ st <> (-1)%Z ->
  scan_from st (pre ++ le) = scan_from st pre.
Proof.
  intros Hpl Hst Hsd He. induction le as [|c le IH] using rev_ind.
  - by rewrite app_nil_r.
  - apply Forall_app in Hpl as [Hle Hc]. apply Forall_inv in Hc.
    rewrite app_assoc, scan_from_snoc, ext_step_plain by done. by apply IH.
Qed.

Lemma ext_step_inv d n st i c :
  d <> (-1)%Z -> n <> (-1)%Z -> ExtInv d n st -> ExtInv d n (ext_step st (i, c)).
Proof.
  intros Hd Hn [H1 H2 H3]. unfold ext_step.
  destruct (stopped st); [done|].
  destruct (Ascii.eqb c "/").
  - destruct (negb (matchedSlash st)); done.
  - apply Z.eqb_neq in Hn as Hn'. rewrite H2, Hn'.
    destruct (Ascii.eqb c ".").
    + rewrite H1. apply Z.eqb_neq in Hd as ->. by constructor.
    + rewrite H1. apply Z.eqb_neq in Hd as ->. by constructor.
Qed.

Lemma scan_from_inv d n st l :
  d <> (-1)%Z -> n <> (-1)%Z -> ExtInv d n st -> ExtInv d n (scan_from st l).
Proof.
  intros Hd Hn. revert st. induction l as [|c l IH] using rev_ind; intros st Hinv.
  - done.
  - rewrite scan_from_snoc. apply IH. by apply ext_step_inv.
Qed.

Lemma append_cons c s1 s2 : String c s1 +:+ s2 = String c (s1 +:+ s2).
Proof. reflexivity. Qed.

Lemma list_ascii_app s1 s2 :
  list_ascii_of_string (s1 +:+ s2)
  = (list_ascii_of_string s1 ++ list_ascii_of_string s2)%list.
Proof. induction s1 as [|c s1 IH]; simpl; [done|]. by rewrite IH. Qed.

Lemma length_list_ascii s : List.length (list_ascii_of_string s) = String.length s.
Proof. induction s as [|c s IH]; simpl; [done|]. by rewrite IH. Qed.

Lemma substring_all s : substring 0 (String.length s) s = s.
Proof. induction s as [|c s IH]; simpl; [done|]. by rewrite IH. Qed.

Lemma substring_skip s1 s2 k :
  substring (String.length s1) k (s1 +:+ s2) = substring 0 k s2.
Proof. induction s1 as [|c s1 IH]; simpl; [done|]. apply IH. Qed.

Lemma ext_step_first i c : plain c -> ext_step ext_init (i, c) = after_first i.
Proof.
  intros [Hd Hs]. apply Ascii.eqb_neq in Hd, Hs.
  unfold ext_step, ext_init. simpl. rewrite Hs, Hd. reflexivity.
Qed.

Lemma ext_step_dot st i :
  stopped st = false -> startDot st = (-1)%Z -> end_ st <> (-1)%Z ->
  ext_step st (i, "."%char)
  = {| startDot := i; startPart := startPart st; end_ := end_ st;
       matchedSlash := matchedSlash st; preDotState := preDotState st;
       stopped := false |}.
Proof.
  intros Hst Hsd He. apply Z.eqb_neq in He.
  unfold ext_step. rewrite Hst. simpl. rewrite He, Hsd. reflexivity.
Qed.

Lemma ext_step_before_dot d n st i c :
  c <> "/"%char -> d <> (-1)%Z -> n <> (-1)%Z ->
  stopped st = false -> startDot st = d -> end_ st = n ->
  ExtInv d n (ext_step st (i, c)).
Proof.
  intros Hc Hd Hn Hst Hsd He. apply Ascii.eqb_neq in Hc.
  apply Z.eqb_neq in Hd, Hn.
  unfold ext_step. rewrite Hst, Hc, He, Hn, Hsd, Hd. simpl.
  destruct (Ascii.eqb c "."); by constructor.
Qed.

Lemma extname_suffix (base : string) (c : ascii) (e : string) :
  c <> "/"%char -> e <> "" ->
  Forall plain (list_ascii_of_string e) ->
  extname (base +:+ String c (String "." e)) = String "." e.
Proof.
  intros Hc He Hpl. rewrite extname_scan. cbv zeta.
  set (path := base +:+ String c (String "." e)).
  set (lb := list_ascii_of_string base).
  set (le := list_ascii_of_string e) in *.
  assert (Hpath : list_ascii_of_string path = (((lb ++ [c]) ++ ["."%char]) ++ le)%list).
  { unfold path. rewrite list_ascii_app. simpl. by rewrite <- !app_assoc. }
  assert (Hle : exists le' x, le = (le' ++ [x])%list).
  { destruct (exists_last (l := le)) as (le' & x & ->); [|by eauto].
    unfold le. destruct e; [done|discriminate]. }
  destruct Hle as (le' & x & Hle).
  pose (d := Z.of_nat (List.length lb + 1)).
  pose (n := Z.of_nat (List.length lb + 2 + List.length le)).
  assert (Hinv : ExtInv d n (scan_from ext_init (list_ascii_of_string path))).
  { rewrite Hpath. unfold n. rewrite Hle in *. clear Hle Hpath.
    apply Forall_app in Hpl as [Hpl' Hx]. apply Forall_inv in Hx.
    rewrite app_assoc, scan_from_snoc, ext_step_first by done.
    rewrite scan_from_plain; [|done..|simpl; lia].
    rewrite scan_from_snoc, ext_step_dot; [|done..|simpl; lia].
    rewrite scan_from_snoc.
    apply scan_from_inv; [unfold d; lia|lia|].
    apply ext_step_before_dot; try done; try (unfold d; lia); simpl.
    - rewrite length_app. simpl. unfold d. lia.
    - rewrite !length_app. simpl. lia. }
  destruct Hinv as [H1 H2 H3]. rewrite H1, H2.
  assert (Hle_pos : (0 < List.length le)%nat).
  { rewrite Hle, length_app. simpl. lia. }
  replace (d =? -1)%Z with false by (symmetry; apply Z.eqb_neq; unfold d; lia).
  replace (n =? -1)%Z with false by (symmetry; apply Z.eqb_neq; unfold n; lia).
  replace (preDotState (scan_from ext_init (list_ascii_of_string path)) =? 0)%Z
    with false by (symmetry; by apply Z.eqb_neq).
  replace (d =? n - 1)%Z with false by (symmetry; apply Z.eqb_neq; unfold d, n; lia).
  rewrite andb_false_r. simpl.
  unfold slice, d, n. unfold lb, le. rewrite !length_list_ascii.
  rewrite Nat2Z.id.
  replace (Z.to_nat _) with (String.length (String "." e)) by (simpl; lia).
  assert (Hsplit : path = (base +:+ String c "") +:+ String "." e).
  { unfold path. clear. induction base as [|b base IH]; [done|].
    rewrite !append_cons. f_equal. exact IH. }
  assert (Hlen : (String.length base + 1)%nat = String.length (base +:+ String c "")).
  { clear. induction base as [|b base IH]; [done|].
    rewrite append_cons. simpl. f_equal. exact IH. }
  rewrite Hsplit, Hlen, substring_skip. apply substring_all.
Qed.

Lemma toLowerCase_dot e : toLowerCase (String "." e) = String "." (toLowerCase e).
Proof. reflexivity. Qed.

(** ** Format detection *)

Example detectFileType_examples :
  map detectFileType
      ["a.csv"; "A.CSV"; "book.xlsx"; "book.XLS"; "d.Json"; "notes.TXT";
       "report.pdf"; "archive.csv.gz"; "csv"; ".csv"]
  = [csv; csv; excel; excel; json; text; unknown; unknown; unknown; unknown].
Proof. vm_compute. reflexivity. Qed.

Lemma detectFileType_cases (filename : string) :
  let ext := toLowerCase (extname filename) in
  (ext = ".csv" /\ detectFileType filename = csv) \/
  ((ext = ".xlsx" \/ ext = ".xls") /\ detectFileType filename = excel) \/
  (ext = ".json" /\ detectFileType filename = json) \/
  (ext = ".txt" /\ detectFileType filename = text) \/
  ((ext <> ".csv" /\ ext <> ".xlsx" /\ ext <> ".xls" /\ ext <> ".json" /\ ext <> ".txt")
   /\ detectFileType filename = unknown).
Proof.
  unfold detectFileType. cbv zeta.
  destruct (String.eqb_spec (toLowerCase (extname filename)) ".csv") as [E1|N1];
    [left; split; [exact E1|reflexivity]|].
  destruct (String.eqb_spec (toLowerCase (extname filename)) ".xlsx") as [E2|N2];
    [right; left; split; [left; exact E2|reflexivity]|].
  destruct (String.eqb_spec (toLowerCase (extname filename)) ".xls") as [E3|N3];
    [right; left; split; [right; exact E3|reflexivity]|].
  destruct (String.eqb_spec (toLowerCase (extname filename)) ".json") as [E4|N4];
    [right; right; left; split; [exact E4|reflexivity]|].
  destruct (String.eqb_spec (toLowerCase (extname filename)) ".txt") as [E5|N5];
    [right; right; right; left; split; [exact E5|reflexivity]|].
  right; right; right; right. repeat split; assumption.
Qed.

Lemma suffix_classified (base : string) (c : ascii) (e : string) :
  c <> "/"%char -> e <> "" ->
  Forall plain (list_ascii_of_string e) ->
  detectFileType (base +:+ String c (String "." e)) =
    if String.eqb (toLowerCase e) "csv" then csv
    else if String.eqb (toLowerCase e) "xlsx" || String.eqb (toLowerCase e) "xls" then excel
    else if String.eqb (toLowerCase e) "json" then json
    else if String.eqb (toLowerCase e) "txt" then text
    else unknown.
Proof.
  intros Hc He Hpl. unfold detectFileType. rewrite extname_suffix by done.
  rewrite toLowerCase_dot.
  change (String.eqb (String "." ?x) (String "." ?y)) with (String.eqb x y).
  destruct (String.eqb (toLowerCase e) "csv"); [done|].
  change (String.eqb (String "." (toLowerCase e)) ".xlsx")
    with (String.eqb (toLowerCase e) "xlsx").
  change (String.eqb (String "." (toLowerCase e)) ".xls")
    with (String.eqb (toLowerCase e) "xls").
  change (String.eqb (String "." (toLowerCase e)) ".json")
    with (String.eqb (toLowerCase e) "json").
  change (String.eqb (String "." (toLowerCase e)) ".txt")
    with (String.eqb (toLowerCase e) "txt").
  destruct (String.eqb (toLowerCase e) "xlsx"); [done|].
  destruct (String.eqb (toLowerCase e) "xls"); done.
Qed.

Lemma plain_letters (e : string) :
  forallb (fun x => negb (Ascii.eqb x ".") && negb (Ascii.eqb x "/"))
          (list_ascii_of_string e) = true ->
  Forall plain (list_ascii_of_string e).
Proof.
  intros Hall. apply List.Forall_forall. intros x Hx.
  apply (proj1 (forallb_forall _ _) Hall) in Hx.
  apply andb_true_iff in Hx as [Hd Hs]. apply negb_true_iff in Hd, Hs.
  split; by apply Ascii.eqb_neq.
Qed.

(** C9: the file type is decided by the lower-cased extension of the file
    name: .csv is csv, .xlsx and .xls are excel (spreadsheet), .json is
    json, .txt is text (delimited text), anything else is unknown.  A
    name that ends in a dot and an extension is classified by that
    extension in any letter case, whatever precedes it; an unknown type
    ends the run with the unsupported-file-type error and no result,
    before anything is parsed. *)
Theorem detect_by_extension
    (w : World) (db : Db) (fieldMappings : Table)
    (f : UploadedFile) (src : option string)
    (base : string) (c : ascii) (e : string) :
  (detectFileType (originalname f) = csv <->
     toLowerCase (extname (originalname f)) = ".csv") /\
  (detectFileType (originalname f) = excel <->
     toLowerCase (extname (originalname f)) = ".xlsx" \/
     toLowerCase (extname (originalname f)) = ".xls") /\
  (detectFileType (originalname f) = json <->
     toLowerCase (extname (originalname f)) = ".json") /\
  (detectFileType (originalname f) = text <->
     toLowerCase (extname (originalname f)) = ".txt") /\
  (c <> "/"%char -> e <> "" -> Forall plain (list_ascii_of_string e) ->
     detectFileType (base +:+ String c (String "." e)) =
       if String.eqb (toLowerCase e) "csv" then csv
       else if String.eqb (toLowerCase e) "xlsx" || String.eqb (toLowerCase e) "xls"
            then excel
       else if String.eqb (toLowerCase e) "json" then json
       else if String.eqb (toLowerCase e) "txt" then text
       else unknown) /\
  (c <> "/"%char ->
     detectFileType (base +:+ String c ".csv") = csv /\
     detectFileType (base +:+ String c ".CSV") = csv /\
     detectFileType (base +:+ String c ".xlsx") = excel /\
     detectFileType (base +:+ String c ".XLSX") = excel /\
     detectFileType (base +:+ String c ".xls") = excel /\
     detectFileType (base +:+ String c ".Xls") = excel /\
     detectFileType (base +:+ String c ".json") = json /\
     detectFileType (base +:+ String c ".JSON") = json /\
     detectFileType (base +:+ String c ".txt") = text /\
     detectFileType (base +:+ String c ".Txt") = text /\
     detectFileType (base +:+ String c ".pdf") = unknown /\
     detectFileType (base +:+ String c ".csvx") = unknown) /\
  (detectFileType (originalname f) = unknown ->
     processFile w fieldMappings (path f) (originalname f) src
       = Throw (Error "Unsupported file type: unknown") /\
     upload w db fieldMappings {| file := Some f; source := src |}
       = ServerError (Error "Unsupported file type: unknown")).
Proof.
  pose proof (detectFileType_cases (originalname f)) as Hc. cbv zeta in Hc.
  split; [|split; [|split; [|split; [|split; [|split]]]]].
  1-4: split; intros H;
       destruct Hc as [[? ?]|[[[?|?] ?]|[[? ?]|[[? ?]|[(?&?&?&?&?) ?]]]]];
       try congruence; try (destruct H; congruence); auto.
  - apply suffix_classified.
  - intros Hslash.
    repeat split;
      (rewrite suffix_classified;
       [reflexivity | exact Hslash | discriminate | apply plain_letters; reflexivity]).
  - intros Hu. unfold upload, processFile. simpl. rewrite Hu. split; reflexivity.
Qed.

Lemma detect_by_extension_witness :
  (detectFileType "data.CSV" = csv /\
   detectFileType "Q3 Report.XLSX" = excel /\
   detectFileType "old.Xls" = excel /\
   detectFileType "customers.JSON" = json /\
   detectFileType "notes.Txt" = text) /\
  detectFileType "report.pdf" = unknown /\
  processFile (Samples.world_of "%PDF-1.4" (Throw SyntaxError)) config.fieldMappings
              "uploads/f1" "report.pdf" None
    = Throw (Error "Unsupported file type: unknown") /\
  upload (Samples.world_of "%PDF-1.4" (Throw SyntaxError)) (Samples.db_failing_at 0)
         config.fieldMappings
         {| file := Some {| path := "uploads/f1"; originalname := "report.pdf" |};
            source := None |}
    = ServerError (Error "Unsupported file type: unknown").
Proof.
  pose (pdf := {| path := "uploads/f1"; originalname := "report.pdf" |}).
  pose (w := Samples.world_of "%PDF-1.4" (Throw SyntaxError)).
  pose (thm := fun base c e =>
          detect_by_extension w (Samples.db_failing_at 0) config.fieldMappings
                              pdf None base c e).
  destruct (thm "dat" "a"%char "CSV") as (_ & _ & _ & _ & Hcsv & _ & Hunk).
  destruct (thm "Q3 Repor" "t"%char "XLSX") as (_ & _ & _ & _ & Hxlsx & _ & _).
  destruct (thm "customer" "s"%char "JSON") as (_ & _ & _ & _ & Hjson & _ & _).
  destruct (thm "repor" "t"%char "pdf") as (_ & _ & _ & _ & Hpdf & _ & _).
  destruct (thm "ol" "d"%char "") as (_ & _ & _ & _ & _ & Hold & _).
  destruct (thm "note" "s"%char "") as (_ & _ & _ & _ & _ & Hnotes & _).
  destruct Hold as (_ & _ & _ & _ & _ & Hxls & _); [discriminate|].
  destruct Hnotes as (_ & _ & _ & _ & _ & _ & _ & _ & _ & Htxt & _); [discriminate|].
  split; [|split].
  - split; [|split; [|split; [|split]]].
    + apply Hcsv; [discriminate | discriminate | apply plain_letters; reflexivity].
    + apply Hxlsx; [discriminate | discriminate | apply plain_letters; reflexivity].
    + exact Hxls.
    + apply Hjson; [discriminate | discriminate | apply plain_letters; reflexivity].
    + exact Htxt.
  - apply Hpdf; [discriminate | discriminate | apply plain_letters; reflexivity].
  - apply Hunk. vm_compute. reflexivity.
Defined.

(** ** Storing *)

Lemma len_cons {A} (x : A) (l : list A) : len (x :: l) = (1 + len l)%Z.
Proof. unfold len. simpl List.length. lia. Qed.

Lemma len_nonneg {A} (l : list A) : (0 <= len l)%Z.
Proof. unfold len. lia. Qed.

Section Store.
Variable db : Db.
Implicit Types (batch : list (gmap string JSValue)) (i : nat) (saved : Z).

Lemma storeErrors_bounds i batch :
  (0 <= storeErrors db i batch <= len batch)%Z.
Proof.
  revert i. induction batch as [|r rest IH]; intros i.
  - unfold len. simpl. lia.
  - cbn [storeErrors]. rewrite len_cons. specialize (IH (S i)).
    destruct (upsert db i r); lia.
Qed.

(** A rejected statement is skipped, the loop goes on to the end. *)
Lemma save_loop_bounds i batch saved :
  (saved <= save_loop db i batch saved
         <= saved + len batch - storeErrors db i batch)%Z.
Proof.
  revert i saved. induction batch as [|r rest IH]; intros i saved.
  - unfold len. simpl. lia.
  - cbn [save_loop storeErrors]. rewrite len_cons.
    destruct (upsert db i r) as [rows|].
    + destruct (0 <? len rows)%Z.
      * specialize (IH (S i) (saved + 1)%Z). lia.
      * specialize (IH (S i) saved). lia.
    + specialize (IH (S i) saved). lia.
Qed.

Lemma save_loop_exact i batch saved :
  returns_row db ->
  save_loop db i batch saved = (saved + len batch - storeErrors db i batch)%Z.
Proof.
  intros Hrow. revert i saved. induction batch as [|r rest IH]; intros i saved.
  - unfold len. simpl. lia.
  - cbn [save_loop storeErrors]. rewrite len_cons.
    destruct (upsert db i r) as [rows|] eqn:Hq.
    + destruct rows as [|id rows]; [by destruct (Hrow i r)|].
      rewrite len_cons. pose proof (len_nonneg rows).
      replace (0 <? 1 + len rows)%Z with true by (symmetry; apply Z.ltb_lt; lia).
      rewrite IH. lia.
    + rewrite IH. lia.
Qed.
End Store.

(** C4: once a run has reached the Store stage, rejected statements do not
    abort it.  With the connection, BEGIN, COMMIT and the removal of the
    upload succeeding, the response is the summary; its stored count never
    exceeds the valid count, and, every resolved upsert returning its row,
    it is the valid count minus the number of rejected statements, so equal
    to the valid count when nothing is rejected. *)
Theorem store_failures_do_not_abort
    (w : World) (db : Db) (fieldMappings : Table)
    (f : UploadedFile) (src : option string) (result : ProcessResult) :
  processFile w fieldMappings (path f) (originalname f) src = Ok result ->
  connect_ok db = true -> begin_ok db = true -> commit_ok db = true ->
  unlinkSync w (path f) = Ok tt ->
  exists summary : Summary,
    upload w db fieldMappings {| file := Some f; source := src |} = Processed summary /\
    totalRecords summary = total result /\
    validRecords summary = valid result /\
    invalidRecords summary = invalid result /\
    (0 <= savedRecords summary <= validRecords summary)%Z /\
    (returns_row db ->
       savedRecords summary
         = (validRecords summary - storeErrors db 0 (records result))%Z /\
       (storeErrors db 0 (records result) = 0%Z ->
          savedRecords summary = validRecords summary)).
Proof.
  intros Hrun Hconn Hbegin Hcommit Hunlink.
  assert (Hvalid : valid result = len (records result)).
  { unfold processFile in Hrun.
    destruct (parseBy w _ _) as [parsed|e]; simpl in Hrun; [|discriminate].
    by apply mapValidate_counts in Hrun as (_ & _ & _ & Hv). }
  unfold upload. simpl. rewrite Hrun. simpl.
  unfold saveRecords. rewrite Hconn, Hbegin, Hcommit. simpl. rewrite Hunlink. simpl.
  eexists. split; [reflexivity|]. simpl. repeat split; try reflexivity.
  - pose proof (save_loop_bounds db 0 (records result) 0). lia.
  - pose proof (save_loop_bounds db 0 (records result) 0).
    pose proof (storeErrors_bounds db 0 (records result)). lia.
  - rewrite save_loop_exact by done. lia.
  - intros Hzero. rewrite save_loop_exact by done. lia.
Qed.

Lemma store_failures_do_not_abort_witness :
  returns_row (Samples.db_failing_at 1) /\
  exists summary : Summary,
    upload Samples.three_customers_world (Samples.db_failing_at 1) config.fieldMappings
           {| file := Some Samples.customers_upload; source := None |}
      = Processed summary /\
    totalRecords summary = total Samples.three_customers_result /\
    validRecords summary = valid Samples.three_customers_result /\
    invalidRecords summary = invalid Samples.three_customers_result /\
    (0 <= savedRecords summary <= validRecords summary)%Z /\
    (returns_row (Samples.db_failing_at 1) ->
       savedRecords summary
         = (validRecords summary
            - storeErrors (Samples.db_failing_at 1) 0
                          (records Samples.three_customers_result))%Z /\
       (storeErrors (Samples.db_failing_at 1) 0
                    (records Samples.three_customers_result) = 0%Z ->
          savedRecords summary = validRecords summary)).
Proof.
  split.
  - intros i record. simpl. destruct (Nat.eqb i 1); discriminate.
  - apply (store_failures_do_not_abort
             Samples.three_customers_world (Samples.db_failing_at 1)
             config.fieldMappings Samples.customers_upload None
             Samples.three_customers_result);
      vm_compute; reflexivity.
Defined.

(** The scenario of the specification: three valid records, the second
    statement rejected; two are counted as stored and the run ends with
    its summary. *)
Example partial_store_failure :
  upload Samples.three_customers_world (Samples.db_failing_at 1) config.fieldMappings
         {| file := Some Samples.customers_upload; source := None |}
  = Processed {| totalRecords := 3; validRecords := 3; invalidRecords := 0;
                 savedRecords := 2 |} /\
  storeErrors (Samples.db_failing_at 1) 0 (records Samples.three_customers_result) = 1%Z.
Proof. split; vm_compute; reflexivity. Qed.

(** * Further properties of the pipeline *)

(** ** Format detection *)

(** X1: a file name that ends in a dot and an extension, with a character
    other than the path separator before the dot, is classified by the
    lower-cased extension alone, whatever precedes it: csv, xlsx and xls,
    json and txt in any letter case are recognised, every other extension
    is unknown. *)
Theorem detectFileType_suffix (base : string) (c : ascii) (e : string) :
  c <> "/"%char -> e <> "" ->
  Forall plain (list_ascii_of_string e) ->
  detectFileType (base +:+ String c (String "." e)) =
    if String.eqb (toLowerCase e) "csv" then csv
    else if String.eqb (toLowerCase e) "xlsx" || String.eqb (toLowerCase e) "xls" then excel
    else if String.eqb (toLowerCase e) "json" then json
    else if String.eqb (toLowerCase e) "txt" then text
    else unknown.
Proof. apply suffix_classified. Qed.

Lemma detectFileType_suffix_witness :
  detectFileType "Q3 Report.XLSX" = excel.
Proof.
  apply (detectFileType_suffix "Q3 Repor" "t" "XLSX").
  - discriminate.
  - discriminate.
  - repeat constructor; discriminate.
Defined.

Lemma ext_step_no_dot st i c :
  c <> "."%char -> startDot st = (-1)%Z -> startDot (ext_step st (i, c)) = (-1)%Z.
Proof.
  intros Hc Hsd. apply Ascii.eqb_neq in Hc. unfold ext_step.
  destruct (stopped st); [done|].
  destruct (Ascii.eqb c "/").
  - by destruct (negb (matchedSlash st)).
  - rewrite Hc. destruct (end_ st =? -1)%Z; simpl; rewrite Hsd; simpl; done.
Qed.

Lemma scan_from_no_dot st l :
  Forall (fun c => c <> "."%char) l -> startDot st = (-1)%Z ->
  startDot (scan_from st l) = (-1)%Z.
Proof.
  revert st. induction l as [|c l IH] using rev_ind; intros st Hl Hsd; [done|].
  apply Forall_app in Hl as [Hl Hc]. apply Forall_inv in Hc.
  rewrite scan_from_snoc. apply IH; [done|]. by apply ext_step_no_dot.
Qed.

(** X2: a file name without any dot has no extension and is unknown. *)
Theorem no_dot_is_unknown (filename : string) :
  Forall (fun c => c <> "."%char) (list_ascii_of_string filename) ->
  detectFileType filename = unknown.
Proof.
  intros Hnd. unfold detectFileType. rewrite extname_scan. cbv zeta.
  rewrite scan_from_no_dot by done. reflexivity.
Qed.

Lemma no_dot_is_unknown_witness : detectFileType "README" = unknown.
Proof. apply (no_dot_is_unknown "README"). repeat constructor; discriminate. Defined.

(** X3: a name that consists of a leading dot and an extension only, such
    as [.csv], has no extension for [path.extname] and is unknown. *)
Theorem dotfile_is_unknown (e : string) :
  Forall plain (list_ascii_of_string e) ->
  detectFileType (String "." e) = unknown.
Proof.
  intros Hpl. unfold detectFileType. rewrite extname_scan. cbv zeta.
  assert (Hpre : preDotState (scan_from ext_init (list_ascii_of_string (String "." e)))
                 = 0%Z).
  { change (list_ascii_of_string (String "." e))
      with (["."%char] ++ list_ascii_of_string e)%list.
    destruct (list_ascii_of_string e) as [|a l] eqn:He using rev_ind.
    - reflexivity.
    - clear IHl. apply Forall_app in Hpl as [Hl Hx]. apply Forall_inv in Hx.
      rewrite app_assoc, scan_from_snoc, ext_step_first by done.
      rewrite scan_from_plain; [|done..|simpl; lia].
      reflexivity. }
  rewrite Hpre. simpl. rewrite !orb_true_r. reflexivity.
Qed.

Lemma dotfile_is_unknown_witness : detectFileType ".csv" = unknown.
Proof. apply (dotfile_is_unknown "csv"). repeat constructor; discriminate. Defined.

(** ** Field mapping *)

Lemma target_hit_intro mapping s t aliases alias :
  In (t, aliases) mapping -> In alias aliases -> alias_matches s alias = true ->
  target_hit mapping s t = true.
Proof.
  intros Hin Hal Hm. unfold target_hit. apply existsb_exists.
  exists (t, aliases). split; [done|]. simpl. rewrite String.eqb_refl. simpl.
  apply existsb_exists. by exists alias.
Qed.

Lemma last_entry_hit mapping entries k v t :
  target_hit mapping (trim (toLowerCase k)) t = true ->
  normalizeWith mapping (entries ++ [(k, v)]) !! t = Some v.
Proof.
  intros Hhit. rewrite normalize_lookup.
  rewrite List.filter_app. simpl. rewrite Hhit. by rewrite last_snoc.
Qed.

Lemma includes_empty s : includes s "" = true.
Proof. destruct s; reflexivity. Qed.

(** X4: it is enough that the lower-cased, trimmed source field name
    CONTAINS a lower-cased alias: the last field of a record that does so
    gives its value to the target. *)
Theorem substring_match_assigns
    (mapping : Mapping) (entries : list (string * JSValue)) (k : string) (v : JSValue)
    (t : string) (aliases : list string) (alias : string) :
  In (t, aliases) mapping -> In alias aliases ->
  includes (trim (toLowerCase k)) (toLowerCase alias) = true ->
  normalizeWith mapping (entries ++ [(k, v)]) !! t = Some v.
Proof.
  intros Hin Hal Hinc. apply last_entry_hit.
  apply (target_hit_intro mapping _ t aliases alias); [done..|].
  unfold alias_matches. rewrite Hinc. apply orb_true_r.
Qed.

Lemma substring_match_assigns_witness :
  normalizeWith config.default_mapping
    ([("City", JStr "Oslo")] ++ [(" Billing_Address ", JStr "1 Main St")])
    !! "address1" = Some (JStr "1 Main St").
Proof.
  apply (substring_match_assigns config.default_mapping _ _ _ "address1"
           ["address"; "address1"; "street_address"; "street"] "address").
  - simpl. right. left. reflexivity.
  - simpl. left. reflexivity.
  - vm_compute. reflexivity.
Defined.

(** X5: an empty-string alias matches every source field, so its target
    always takes the value of the record's last field. *)
Theorem empty_alias_matches_every_field
    (mapping : Mapping) (entries : list (string * JSValue)) (k : string) (v : JSValue)
    (t : string) (aliases : list string) :
  In (t, aliases) mapping -> In "" aliases ->
  normalizeWith mapping (entries ++ [(k, v)]) !! t = Some v.
Proof.
  intros Hin Hal. apply last_entry_hit.
  apply (target_hit_intro mapping _ t aliases ""); [done..|].
  unfold alias_matches. simpl toLowerCase. rewrite includes_empty. apply orb_true_r.
Qed.

Lemma empty_alias_matches_every_field_witness :
  normalizeWith MoreSamples.empty_alias_mapping
    ([("name", JStr "Ada")] ++ [("zip", JStr "90210")]) !! "name"
  = Some (JStr "90210").
Proof.
  apply (empty_alias_matches_every_field MoreSamples.empty_alias_mapping _ _ _ "name" [""]).
  - simpl. left. reflexivity.
  - simpl. left. reflexivity.
Defined.

(** X6: normalization never makes up a value: what a target field holds
    is null or the value of some field of the record. *)
Theorem normalized_values_from_record
    (mapping : Mapping) (entries : list (string * JSValue)) (t : string) (v : JSValue) :
  normalizeWith mapping entries !! t = Some v ->
  v = JNull \/ exists k, In (k, v) entries.
Proof.
  rewrite normalize_lookup.
  destruct (last _) as [[k x]|] eqn:Hlast.
  - intros [= <-]. right. exists k.
    apply last_Some_elem_of, list_elem_of_In in Hlast.
    by apply List.filter_In in Hlast as [Hin _].
  - intros Hv. left. by apply (init_keys_values (map fst mapping) t).
Qed.

Lemma normalized_values_from_record_witness :
  JStr "B" = JNull \/ exists k, In (k, JStr "B") Samples.two_names.
Proof.
  apply (normalized_values_from_record config.default_mapping Samples.two_names "name").
  vm_compute. reflexivity.
Defined.

(** X7: a record without enumerable fields (an empty object, a number or
    a boolean) is normalized without error and is invalid, whatever the
    source name resolves to; under a mapping, every target field other
    than [__proto__] is null. *)
Theorem fieldless_record_is_invalid
    (fieldMappings : Table) (source : string) (found : Found) (record : JSValue) :
  select_mapping fieldMappings source = Some found ->
  Object_entries record = Ok [] ->
  exists n : gmap string JSValue,
    normalizeRecord fieldMappings record source = Ok n /\
    isValid n = false /\
    (forall mapping t, found = FMapping mapping ->
       In t (map fst mapping) -> t <> "__proto__" -> n !! t = Some JNull).
Proof.
  intros Hsel Hent. unfold normalizeRecord. rewrite Hsel, Hent. simpl.
  destruct found as [mapping|aliases|].
  - exists (normalizeWith mapping []). split; [done|]. split.
    + unfold isValid. simpl. unfold normalizeWith, normalize_obj. simpl.
      destruct (rec_own (init_nulls mapping) !! "name") as [x|] eqn:Hx; [|done].
      by rewrite (init_keys_values (map fst mapping) "name" x Hx).
    + intros m t [= <-] Ht Hne. unfold normalizeWith, normalize_obj. simpl.
      by rewrite init_nulls_lookup, existsb_eqb_In.
  - eexists. split; [by destruct aliases|]. split; [|discriminate].
    unfold isValid. simpl.
    destruct (rec_own (init_keys _) !! "name") as [x|] eqn:Hx; [|done].
    by rewrite (init_keys_values _ "name" x Hx).
  - exists ∅. split; [done|]. split; [done|discriminate].
Qed.

Lemma fieldless_record_is_invalid_witness :
  exists n : gmap string JSValue,
    normalizeRecord config.fieldMappings (JNum 42) "default" = Ok n /\
    isValid n = false /\
    (forall mapping t, FMapping config.default_mapping = FMapping mapping ->
       In t (map fst mapping) -> t <> "__proto__" -> n !! t = Some JNull).
Proof.
  apply (fieldless_record_is_invalid config.fieldMappings "default"
           (FMapping config.default_mapping) (JNum 42)).
  - vm_compute. reflexivity.
  - reflexivity.
Defined.

(** X8: under a mapping that lacks a required target field every record
    is invalid, whatever it contains. *)
Theorem mapping_without_required_target
    (mapping : Mapping) (entries : list (string * JSValue)) (field : string) :
  In field config.requiredFields ->
  ~ In field (map fst mapping) ->
  isValid (normalizeWith mapping entries) = false.
Proof.
  intros Hreq Hnot. apply not_true_is_false. intros Hvalid.
  apply isValid_spec with (field := field) in Hvalid; [|done].
  destruct (normalizeWith mapping entries !! field) as [x|] eqn:Hx; [|done].
  apply Hnot, (normalize_keys_are_targets mapping entries). by rewrite Hx.
Qed.

Lemma mapping_without_required_target_witness :
  isValid (normalizeWith MoreSamples.snake_case_mapping
             [("customer", JStr "Ada"); ("client_code", JStr "7")]) = false.
Proof.
  apply (mapping_without_required_target MoreSamples.snake_case_mapping _ "authId").
  - simpl. right. left. reflexivity.
  - simpl. intros [H|[H|[]]]; discriminate H.
Defined.



(** X23: the normalized record has no key besides the mapping's target
    fields, and it has every target field other than [__proto__]; for a
    mapping without a [__proto__] target its key set is exactly the set of
    target fields, and a target that no source field matches holds null. *)
Theorem normalizeRecord_key_set
    (fieldMappings : Table) (mappingKey : string)
    (record : JSValue) (mapping : Mapping) (entries : list (string * JSValue)) :
  select_mapping fieldMappings mappingKey = Some (FMapping mapping) ->
  Object_entries record = Ok entries ->
  exists normalized : gmap string JSValue,
    normalizeRecord fieldMappings record mappingKey = Ok normalized /\
    (forall t, is_Some (normalized !! t) -> In t (map fst mapping)) /\
    (forall t, In t (map fst mapping) -> t <> "__proto__" -> is_Some (normalized !! t)) /\
    (~ In "__proto__" (map fst mapping) ->
       dom normalized = list_to_set (map fst mapping)) /\
    (forall t, In t (map fst mapping) -> t <> "__proto__" ->
       (forall e, In e entries ->
          target_hit mapping (trim (toLowerCase (fst e))) t = false) ->
       normalized !! t = Some JNull).
Proof.
  intros Hsel Hent. exists (normalizeWith mapping entries).
  unfold normalizeRecord. rewrite Hsel, Hent. simpl. split; [done|].
  split; [apply normalize_keys_are_targets|].
  split; [apply normalize_has_target|]. split.
  - intros Hnot. apply set_eq. intros t.
    rewrite elem_of_dom, elem_of_list_to_set, list_elem_of_In. split.
    + apply normalize_keys_are_targets.
    + intros Ht. apply normalize_has_target; [done|]. by intros ->.
  - intros t Ht Hne Hno. rewrite normalize_lookup.
    assert (Hnil : List.filter
              (fun e => target_hit mapping (trim (toLowerCase (fst e))) t) entries = []).
    { clear Hent. induction entries as [|e es IH]; [done|]. simpl.
      rewrite (Hno e) by (by left). apply IH. intros e' He'. apply Hno. by right. }
    rewrite Hnil. simpl. by rewrite init_nulls_lookup, existsb_eqb_In.
Qed.

Lemma normalizeRecord_key_set_witness :
  exists normalized : gmap string JSValue,
    normalizeRecord config.fieldMappings (JObj Samples.customer_only) "vendor1"
      = Ok normalized /\
    (forall t, is_Some (normalized !! t) -> In t (map fst config.vendor1_mapping)) /\
    (forall t, In t (map fst config.vendor1_mapping) -> t <> "__proto__" ->
       is_Some (normalized !! t)) /\
    (~ In "__proto__" (map fst config.vendor1_mapping) ->
       dom normalized = list_to_set (map fst config.vendor1_mapping)) /\
    (forall t, In t (map fst config.vendor1_mapping) -> t <> "__proto__" ->
       (forall e, In e Samples.customer_only ->
          target_hit config.vendor1_mapping (trim (toLowerCase (fst e))) t = false) ->
       normalized !! t = Some JNull).
Proof.
  apply (normalizeRecord_key_set config.fieldMappings "vendor1"
           (JObj Samples.customer_only) config.vendor1_mapping Samples.customer_only).
  - vm_compute. reflexivity.
  - reflexivity.
Defined.

(** ** processFile *)

Lemma mapR_ext {A B} (f g : A -> Result B) (l : list A) :
  (forall a, f a = g a) -> mapR f l = mapR g l.
Proof.
  intros Hfg. induction l as [|a l IH]; simpl; [done|]. by rewrite Hfg, IH.
Qed.

Lemma select_mapping_fallback (fieldMappings : Table) (k : string) :
  table_get fieldMappings k = None ->
  select_mapping fieldMappings k = select_mapping fieldMappings "default".
Proof.
  intros Hk. unfold select_mapping. rewrite Hk.
  by destruct (table_get fieldMappings "default").
Qed.

(** X9: an upload for a source name under which the table provides
    nothing (no entry, nothing inherited) is processed exactly as an upload
    without source name, that is with the default mapping. *)
Theorem unregistered_source_uses_default
    (w : World) (fieldMappings : Table)
    (filePath filename k : string) :
  table_get fieldMappings k = None ->
  processFile w fieldMappings filePath filename (Some k)
  = processFile w fieldMappings filePath filename None.
Proof.
  intros Hk. unfold processFile. simpl.
  destruct (parseBy w _ _) as [parsed|e]; simpl; [|done].
  unfold mapValidate.
  rewrite (mapR_ext _ (fun record => normalizeRecord fieldMappings record "default")); [done|].
  intros record. unfold normalizeRecord. by rewrite select_mapping_fallback.
Qed.

Lemma unregistered_source_uses_default_witness :
  processFile Samples.three_customers_world config.fieldMappings
              "uploads/f1" "customers.json" (Some "acme")
  = processFile Samples.three_customers_world config.fieldMappings
                "uploads/f1" "customers.json" None.
Proof.
  apply (unregistered_source_uses_default Samples.three_customers_world
           config.fieldMappings "uploads/f1" "customers.json" "acme").
  vm_compute. reflexivity.
Defined.

(** A source name that [Object.prototype] provides is not an unregistered
    one: the inherited function is taken as the mapping, no record gets a
    key, and all are invalid. *)
Example inherited_source_name :
  table_get config.fieldMappings "constructor" = Some FBuiltin /\
  processFile Samples.three_customers_world config.fieldMappings
              "uploads/f1" "customers.json" (Some "constructor")
  = Ok {| total := 3; valid := 0; invalid := 3; records := [] |}.
Proof. split; vm_compute; reflexivity. Qed.

Lemma normalizeRecord_throws (fieldMappings : Table)
    (record : JSValue) (source : string) (e : Exn) :
  normalizeRecord fieldMappings record source = Throw e -> e = TypeError.
Proof.
  unfold normalizeRecord. destruct (select_mapping _ _) as [[m|al|]|]; [| | |by intros [= <-]].
  - destruct record; simpl; try discriminate. by intros [= <-].
  - destruct record; simpl; try (by intros [= <-]);
      repeat match goal with
             | |- context [match ?x with _ => _ end] => destruct x
             end; simpl; try discriminate; by intros [= <-].
  - destruct record; simpl; try discriminate. by intros [= <-].
Qed.

Lemma mapR_throws {A B} (f : A -> Result B) (l : list A) (a : A) (e0 e : Exn) :
  (forall x e', f x = Throw e' -> e' = e) ->
  In a l -> f a = Throw e0 -> mapR f l = Throw e.
Proof.
  intros Hall Hin Ha. induction l as [|x l IH]; [done|]. simpl.
  destruct (f x) as [b|e'] eqn:Hx; simpl.
  - destruct Hin as [->|Hin]; [congruence|]. rewrite IH; done.
  - by rewrite (Hall x e' Hx).
Qed.

(** X10: one [null] among the parsed records makes the whole run throw a
    TypeError; no other record is counted. *)
Theorem null_element_aborts_run
    (w : World) (fieldMappings : Table)
    (filePath filename : string) (source : option string) (parsed : list JSValue) :
  parseBy w (detectFileType filename) filePath = Ok parsed ->
  In JNull parsed ->
  processFile w fieldMappings filePath filename source = Throw TypeError.
Proof.
  intros Hparse Hnull. unfold processFile. rewrite Hparse. simpl. unfold mapValidate.
  rewrite (mapR_throws _ parsed JNull TypeError TypeError); [done| |done|].
  - intros x e'. apply normalizeRecord_throws.
  - unfold normalizeRecord. by destruct (select_mapping _ _) as [[m|al|]|].
Qed.

Lemma null_element_aborts_run_witness :
  processFile MoreSamples.with_null_world config.fieldMappings
              "uploads/f1" "customers.json" None
  = Throw TypeError.
Proof.
  apply (null_element_aborts_run MoreSamples.with_null_world config.fieldMappings
           "uploads/f1" "customers.json" None
           [JObj (Samples.customer "A" "1"); JNull]).
  - vm_compute. reflexivity.
  - simpl. right. left. reflexivity.
Defined.

(** X11: every record that [processFile] hands on for storing has a
    truthy [name] and a truthy [authId]; the valid count is the number of
    these records, lies between 0 and the total, and the invalid count is
    the difference. *)
Theorem processFile_returns_valid_records
    (w : World) (fieldMappings : Table)
    (filePath filename : string) (source : option string) (r : ProcessResult) :
  processFile w fieldMappings filePath filename source = Ok r ->
  Forall (fun n => truthy_prop (n !! "name") = true /\
                   truthy_prop (n !! "authId") = true) (records r) /\
  valid r = len (records r) /\
  (0 <= valid r <= total r)%Z /\
  invalid r = (total r - valid r)%Z.
Proof.
  unfold processFile. destruct (parseBy w _ _) as [parsed|e]; simpl; [|discriminate].
  intros Hrun. pose proof (mapValidate_counts _ _ _ _ Hrun) as (Ht & Hsum & Hv & Hlen).
  repeat split; try lia.
  unfold mapValidate in Hrun. destruct (mapR _ parsed) as [ns|e]; simpl in Hrun; [|discriminate].
  injection Hrun as <-. simpl. apply List.Forall_forall. intros n Hn.
  apply List.filter_In in Hn as [_ Hn]. split; apply (proj1 (isValid_spec n) Hn); simpl; auto.
Qed.

Lemma processFile_returns_valid_records_witness :
  Forall (fun n => truthy_prop (n !! "name") = true /\
                   truthy_prop (n !! "authId") = true)
         (records Samples.three_customers_result) /\
  valid Samples.three_customers_result = len (records Samples.three_customers_result) /\
  (0 <= valid Samples.three_customers_result <= total Samples.three_customers_result)%Z /\
  invalid Samples.three_customers_result
  = (total Samples.three_customers_result - valid Samples.three_customers_result)%Z.
Proof.
  apply (processFile_returns_valid_records Samples.three_customers_world
           config.fieldMappings "uploads/f1" "customers.json" None).
  vm_compute. reflexivity.
Defined.

(** ** The text parser *)

Lemma has_key_false {A} (key : string) (l : list (string * A)) :
  ~ In key (map fst l) -> has_key key l = false.
Proof.
  intros Hnot. apply not_true_is_false. intros Hex.
  apply existsb_exists in Hex as [[k x] [Hin Hk]]. simpl in Hk.
  apply String.eqb_eq in Hk. subst. apply Hnot. apply (in_map fst _ _ Hin).
Qed.

Lemma obj_assign_fresh (o : ListObj) (key : string) (v : JSValue) :
  ordinary_key key = true -> ~ In key (map fst (props o)) ->
  obj_assign o key v
  = {| props := (props o ++ [(key, v)])%list; obj_proto := obj_proto o |}.
Proof.
  intros Hord Hnot. apply andb_true_iff in Hord as [Hp Hi].
  apply negb_true_iff in Hp. unfold obj_assign, proto_setter. rewrite Hp. simpl.
  unfold obj_set. rewrite has_key_false by done.
  by destruct (array_index key).
Qed.

Lemma fold_obj_assign (val : nat -> JSValue) (headers : list string) :
  forall (ix : nat -> nat) (acc : ListObj),
    NoDup headers ->
    Forall (fun h => ordinary_key h = true) headers ->
    (forall h, In h headers -> ~ In h (map fst (props acc))) ->
    props (fold_left (fun record '(index, header) => obj_assign record header (val index))
                     (imap (fun i h => (ix i, h)) headers) acc)
    = (props acc ++ imap (fun i h => (h, val (ix i))) headers)%list.
Proof.
  induction headers as [|h hs IH]; intros ix acc Hnd Hord Hfresh; simpl.
  - by rewrite app_nil_r.
  - apply NoDup_cons in Hnd as [Hh Hnd]. apply Forall_cons in Hord as [Hoh Hord].
    rewrite obj_assign_fresh by (try done; apply Hfresh; by left).
    rewrite (IH (fun i => ix (S i))); [simpl; by rewrite <- app_assoc|done|done|].
    simpl. intros h' Hh' Hin. rewrite map_app in Hin. apply in_app_or in Hin as [Hin|Hin].
    + apply (Hfresh h'); [by right|done].
    + simpl in Hin. destruct Hin as [<-|[]]. by apply Hh, list_elem_of_In.
Qed.

Lemma text_record_imap (delimiter : ascii) (headers : list string) (line : string) :
  NoDup headers ->
  Forall (fun h => ordinary_key h = true) headers ->
  text_record delimiter headers line
  = JObj (imap (fun index header =>
                  (header, cell (split_on delimiter line !! index)))
               headers).
Proof.
  intros Hnd Hord. unfold text_record. f_equal.
  exact (fold_obj_assign (fun index => cell (split_on delimiter line !! index))
                         headers (fun i => i)
                         {| props := []; obj_proto := ObjectPrototype |}
                         Hnd Hord (fun _ _ H => H)).
Qed.

Lemma length_split_on sep s :
  List.length (split_on sep s) = S (count_char sep s).
Proof.
  induction s as [|x s IH]; simpl; [done|].
  destruct (Ascii.eqb x sep); simpl; [by rewrite IH|].
  destruct (split_on sep s); simpl in *; lia.
Qed.

Lemma parseText_length (data : string) :
  List.length (parseText_data data) = count_char newline (trim data).
Proof.
  unfold parseText_data. rewrite length_map.
  pose proof (length_split_on newline (trim data)) as Hlen.
  destruct (split_on newline (trim data)); simpl in *; lia.
Qed.

Lemma map_fst_imap_pair {B} (g : nat -> B) (l : list string) :
  map fst (imap (fun i h => (h, g i)) l) = l.
Proof.
  revert g. induction l as [|h l IH]; intros g; simpl; [done|].
  f_equal. apply (IH (fun i => g (S i))).
Qed.

(** X12: with distinct header names, none of them an array index or
    [__proto__], a text line becomes a record with exactly the header
    names as keys, in header order; the field at a position holds the
    trimmed cell at that position, and null when the cell is empty or the
    line has fewer cells than the header. *)
Theorem text_record_fields (delimiter : ascii) (headers : list string) (line : string) :
  NoDup headers ->
  Forall (fun h => ordinary_key h = true) headers ->
  exists fields : list (string * JSValue),
    text_record delimiter headers line = JObj fields /\
    map fst fields = headers /\
    (forall index header, headers !! index = Some header ->
       fields !! index = Some (header, cell (split_on delimiter line !! index)) /\
       ((List.length (split_on delimiter line) <= index)%nat ->
        fields !! index = Some (header, JNull))).
Proof.
  intros Hnd Hord. eexists. split; [by apply text_record_imap|]. split.
  - apply map_fst_imap_pair.
  - intros index header Hh.
    assert (Hp : imap (fun index header =>
                         (header, cell (split_on delimiter line !! index))) headers
                 !! index
                 = Some (header, cell (split_on delimiter line !! index))).
    { rewrite list_lookup_imap, Hh. reflexivity. }
    split; [done|]. intros Hshort. rewrite Hp.
    by rewrite (lookup_ge_None_2 _ _ Hshort).
Qed.

Lemma text_record_fields_witness :
  exists fields : list (string * JSValue),
    text_record tab ["name"; "id"] "Bob" = JObj fields /\
    map fst fields = ["name"; "id"] /\
    (forall index header, ["name"; "id"] !! index = Some header ->
       fields !! index = Some (header, cell (split_on tab "Bob" !! index)) /\
       ((List.length (split_on tab "Bob") <= index)%nat ->
        fields !! index = Some (header, JNull))).
Proof.
  apply (text_record_fields tab ["name"; "id"] "Bob").
  - apply (bool_decide_unpack _). vm_compute. exact I.
  - repeat constructor.
Defined.

(** Headers that are array indices are enumerated first, in ascending
    order, and a header [__proto__] gives no field. *)
Example text_record_special_headers :
  text_record comma ["name"; "7"; "__proto__"; "2"] "Ada,x,y,z"
  = JObj [("2", JStr "z"); ("7", JStr "x"); ("name", JStr "Ada")].
Proof. vm_compute. reflexivity. Qed.

(** X13: for a text file within the ASCII range that can be read, and a
    source name that resolves to a mapping, [processFile] always gives a
    result, and its total is the number of line breaks of the trimmed
    content: one record per line after the header, blank lines included. *)
Theorem text_upload_always_counted
    (w : World) (fieldMappings : Table)
    (filePath filename : string) (source : option string)
    (data : string) (mapping : Mapping) :
  detectFileType filename = text ->
  readFile w filePath = Ok data ->
  ascii_only data = true ->
  select_mapping fieldMappings (default "default" source) = Some (FMapping mapping) ->
  exists r : ProcessResult,
    processFile w fieldMappings filePath filename source = Ok r /\
    total r = Z.of_nat (count_char newline (trim data)).
Proof.
  intros Htype Hread _ Hsel. unfold processFile. rewrite Htype. simpl.
  unfold parseText. rewrite Hread. simpl.
  destruct (mapR_total
              (fun record => normalizeRecord fieldMappings record (default "default" source))
              (parseText_data data)) as [ns Hns].
  { intros a Ha. unfold parseText_data in Ha. apply in_map_iff in Ha as (line & <- & _).
    unfold normalizeRecord. rewrite Hsel. unfold text_record. simpl. by eexists. }
  assert (Hrun : exists r, mapValidate fieldMappings (parseText_data data)
                             (default "default" source) = Ok r).
  { unfold mapValidate. rewrite Hns. simpl. by eexists. }
  destruct Hrun as [r Hr]. exists r. split; [done|].
  apply mapValidate_counts in Hr as (Ht & _). rewrite Ht. unfold len.
  by rewrite parseText_length.
Qed.

Lemma text_upload_always_counted_witness :
  exists r : ProcessResult,
    processFile (Samples.world_of MoreSamples.two_rows_text (Throw SyntaxError))
                config.fieldMappings "uploads/f2" "notes.txt" None = Ok r /\
    total r = Z.of_nat (count_char newline (trim MoreSamples.two_rows_text)).
Proof.
  apply (text_upload_always_counted
           (Samples.world_of MoreSamples.two_rows_text (Throw SyntaxError))
           config.fieldMappings "uploads/f2" "notes.txt" None
           MoreSamples.two_rows_text config.default_mapping).
  - vm_compute. reflexivity.
  - reflexivity.
  - vm_compute. reflexivity.
  - vm_compute. reflexivity.
Defined.

(** ** Storing and the upload endpoint *)

(** X14: [saveRecords] throws exactly when connecting, BEGIN or COMMIT
    fails, whatever happens to single statements; what it returns always
    has [success = true], and a count between 0 and the number of records
    that were not rejected. *)
Theorem saveRecords_throws_only_on_batch_steps
    (db : Db) (batch : list (gmap string JSValue)) :
  isOk (saveRecords db batch) = connect_ok db && begin_ok db && commit_ok db /\
  (forall e, saveRecords db batch = Throw e -> e = DbError) /\
  (forall r, saveRecords db batch = Ok r ->
     success r = true /\
     (0 <= count r <= len batch - storeErrors db 0 batch)%Z).
Proof.
  unfold saveRecords.
  destruct (connect_ok db), (begin_ok db), (commit_ok db); simpl;
    (split; [reflexivity|]); (split; [by intros e [= <-]|]); try discriminate.
  intros r [= <-]. simpl. split; [done|].
  pose proof (save_loop_bounds db 0 batch 0). lia.
Qed.

Lemma saveRecords_throws_only_on_batch_steps_witness :
  success {| success := true; count := 2 |} = true /\
  (0 <= count {| success := true; count := 2 |}
     <= len (records Samples.three_customers_result)
        - storeErrors (Samples.db_failing_at 1) 0
                      (records Samples.three_customers_result))%Z.
Proof.
  apply (proj2 (proj2 (saveRecords_throws_only_on_batch_steps
                         (Samples.db_failing_at 1)
                         (records Samples.three_customers_result)))).
  vm_compute. reflexivity.
Defined.

(** X15: when connecting, BEGIN or COMMIT fails, an upload that was
    parsed and validated is answered with status 500 and no summary. *)
Theorem failed_transaction_is_server_error
    (w : World) (db : Db) (fieldMappings : Table)
    (f : UploadedFile) (src : option string) (result : ProcessResult) :
  processFile w fieldMappings (path f) (originalname f) src = Ok result ->
  connect_ok db && begin_ok db && commit_ok db = false ->
  upload w db fieldMappings {| file := Some f; source := src |} = ServerError DbError.
Proof.
  intros Hrun Hdb. unfold upload. simpl. rewrite Hrun. simpl. unfold saveRecords.
  destruct (connect_ok db), (begin_ok db), (commit_ok db); simpl; done.
Qed.

Lemma failed_transaction_is_server_error_witness :
  upload Samples.three_customers_world MoreSamples.db_commit_fails config.fieldMappings
         {| file := Some Samples.customers_upload; source := None |}
  = ServerError DbError.
Proof.
  apply (failed_transaction_is_server_error Samples.three_customers_world
           MoreSamples.db_commit_fails config.fieldMappings Samples.customers_upload None
           Samples.three_customers_result).
  - vm_compute. reflexivity.
  - reflexivity.
Defined.

(** X16: every 200 response carries counts that reconcile: saved is
    between 0 and valid, valid is at most total, invalid is total minus
    valid; and it is only sent after connect, BEGIN and COMMIT succeeded
    and the uploaded file was removed. *)
Theorem processed_response_reconciles
    (w : World) (db : Db) (fieldMappings : Table)
    (req : UploadRequest) (s : Summary) :
  upload w db fieldMappings req = Processed s ->
  (0 <= savedRecords s <= validRecords s)%Z /\
  (validRecords s <= totalRecords s)%Z /\
  invalidRecords s = (totalRecords s - validRecords s)%Z /\
  connect_ok db && begin_ok db && commit_ok db = true /\
  exists f, file req = Some f /\ unlinkSync w (path f) = Ok tt.
Proof.
  unfold upload. destruct (file req) as [f|]; [|discriminate].
  destruct (processFile w fieldMappings (path f) (originalname f) (source req))
    as [result|e] eqn:Hrun; simpl; [|discriminate].
  unfold processFile in Hrun.
  destruct (parseBy w _ _) as [parsed|e]; simpl in Hrun; [|discriminate].
  apply mapValidate_counts in Hrun as (Ht & Hsum & Hv & Hlen).
  unfold saveRecords.
  destruct (connect_ok db), (begin_ok db), (commit_ok db); simpl; try discriminate.
  destruct (unlinkSync w (path f)) as [[]|e] eqn:Hun; simpl; [|discriminate].
  intros [= <-]. simpl.
  pose proof (save_loop_bounds db 0 (records result) 0).
  pose proof (storeErrors_bounds db 0 (records result)).
  repeat split; try lia. by exists f.
Qed.

Lemma processed_response_reconciles_witness :
  (0 <= 2 <= 3)%Z /\ (3 <= 3)%Z /\ 0%Z = (3 - 3)%Z /\
  connect_ok (Samples.db_failing_at 1) && begin_ok (Samples.db_failing_at 1)
    && commit_ok (Samples.db_failing_at 1) = true /\
  exists f, Some Samples.customers_upload = Some f /\
            unlinkSync Samples.three_customers_world (path f) = Ok tt.
Proof.
  apply (processed_response_reconciles Samples.three_customers_world
           (Samples.db_failing_at 1) config.fieldMappings
           {| file := Some Samples.customers_upload; source := None |}
           {| totalRecords := 3; validRecords := 3; invalidRecords := 0;
              savedRecords := 2 |}).
  vm_compute. reflexivity.
Defined.

(** X17: a [.json] upload whose content [JSON.parse] rejects is answered
    with status 500 carrying that error, whatever the store and the
    mapping table are. *)
Theorem malformed_json_is_server_error
    (w : World) (db : Db) (fieldMappings : Table)
    (f : UploadedFile) (src : option string) (data : string) (e : Exn) :
  detectFileType (originalname f) = json ->
  readFile w (path f) = Ok data ->
  JSON_parse w data = Throw e ->
  upload w db fieldMappings {| file := Some f; source := src |} = ServerError e.
Proof.
  intros Htype Hread Hparse. unfold upload, processFile. simpl.
  rewrite Htype. simpl. unfold parseJSON. rewrite Hread. simpl. by rewrite Hparse.
Qed.

Lemma malformed_json_is_server_error_witness :
  upload MoreSamples.broken_json_world (Samples.db_failing_at 0) config.fieldMappings
         {| file := Some Samples.customers_upload; source := None |}
  = ServerError SyntaxError.
Proof.
  apply (malformed_json_is_server_error MoreSamples.broken_json_world
           (Samples.db_failing_at 0) config.fieldMappings Samples.customers_upload None "[{").
  - vm_compute. reflexivity.
  - reflexivity.
  - reflexivity.
Defined.

(** ** The mapping table *)

Lemma postMapping_table (fieldMappings : Table) (req : MappingRequest) :
  postMapping fieldMappings req
    = (BadRequest "Name and mappings are required", fieldMappings) \/
  exists n m, name req = Some n /\ mappings req = Some m /\ n <> "" /\
              postMapping fieldMappings req = (Created n, table_set fieldMappings n m).
Proof.
  unfold postMapping. destruct (name req) as [n|], (mappings req) as [m|]; simpl; auto.
  destruct (String.eqb_spec n "") as [->|Hne]; simpl; [auto|].
  right. by exists n, m.
Qed.

Lemma table_set_twice (fieldMappings : Table) (n : string) (m : Mapping) :
  (n = "__proto__" -> has_key "__proto__" m = false) ->
  table_set (table_set fieldMappings n m) n m = table_set fieldMappings n m.
Proof.
  intros Hm. destruct (String.eqb_spec n "__proto__") as [->|Hne].
  - specialize (Hm eq_refl). unfold table_set. simpl String.eqb. cbv iota. simpl andb.
    destruct (bool_decide (is_Some (table_own fieldMappings !! "__proto__"))) eqn:Hb;
      simpl.
    + rewrite bool_decide_eq_true_2 by (rewrite lookup_insert_eq; by eexists).
      simpl. by rewrite insert_insert_eq.
    + destruct (table_proto fieldMappings) as [p|] eqn:Hp; simpl.
      * destruct (has_key "__proto__" p) eqn:Hh; simpl.
        -- rewrite bool_decide_eq_true_2 by (rewrite lookup_insert_eq; by eexists).
           simpl. by rewrite insert_insert_eq.
        -- by rewrite Hb, Hm.
      * by rewrite Hb, Hm.
  - rewrite !table_set_plain by done. simpl. by rewrite insert_insert_eq.
Qed.

(** X18: posting the same mapping request a second time gives the same
    response and leaves the table as the first post left it, unless the
    request names its mapping [__proto__] and that mapping has a target
    field [__proto__] itself. *)
Theorem postMapping_idempotent (fieldMappings : Table) (req : MappingRequest) :
  (forall m, name req = Some "__proto__" -> mappings req = Some m ->
             has_key "__proto__" m = false) ->
  postMapping (snd (postMapping fieldMappings req)) req
  = (fst (postMapping fieldMappings req), snd (postMapping fieldMappings req)).
Proof.
  intros Hm.
  destruct (postMapping_table fieldMappings req) as [Hbad|(n & m & Hn & Hmp & Hne & Hok)].
  - rewrite Hbad. simpl. exact Hbad.
  - rewrite Hok. simpl. unfold postMapping. rewrite Hn, Hmp. simpl.
    apply String.eqb_neq in Hne as Hne'. rewrite Hne'. simpl.
    rewrite table_set_twice; [done|]. intros ->. by apply Hm.
Qed.

Lemma postMapping_idempotent_witness :
  postMapping (snd (postMapping config.fieldMappings
                      (MoreSamples.proto_request config.vendor1_mapping)))
              (MoreSamples.proto_request config.vendor1_mapping)
  = (fst (postMapping config.fieldMappings
            (MoreSamples.proto_request config.vendor1_mapping)),
     snd (postMapping config.fieldMappings
            (MoreSamples.proto_request config.vendor1_mapping))).
Proof.
  apply (postMapping_idempotent config.fieldMappings
           (MoreSamples.proto_request config.vendor1_mapping)).
  intros m _ [= <-]. reflexivity.
Defined.

(** The excepted case: the first post makes the mapping the prototype of
    the table, the second finds the data property [__proto__] of that
    prototype and adds an own entry. *)
Example second_proto_post_adds_an_entry :
  table_own (snd (postMapping config.fieldMappings
                    (MoreSamples.proto_request MoreSamples.proto_target_mapping)))
    !! "__proto__" = None /\
  table_own (snd (postMapping
                    (snd (postMapping config.fieldMappings
                            (MoreSamples.proto_request MoreSamples.proto_target_mapping)))
                    (MoreSamples.proto_request MoreSamples.proto_target_mapping)))
    !! "__proto__" = Some MoreSamples.proto_target_mapping.
Proof. split; vm_compute; reflexivity. Qed.

(** X19: once a mapping is registered under a non-empty name other than
    [__proto__], records of that source are normalized with it, and what
    every other name gives is untouched. *)
Theorem registered_mapping_is_used
    (fieldMappings : Table) (n : string) (m : Mapping)
    (fields : list (string * JSValue)) :
  n <> "" -> n <> "__proto__" ->
  normalizeRecord (snd (postMapping fieldMappings {| name := Some n; mappings := Some m |}))
                  (JObj fields) n
    = Ok (normalizeWith m fields) /\
  (forall k, k <> n ->
     table_get (snd (postMapping fieldMappings {| name := Some n; mappings := Some m |})) k
     = table_get fieldMappings k).
Proof.
  intros Hn Hp. unfold postMapping. simpl.
  destruct (String.eqb_spec n "") as [->|_]; [done|]. simpl.
  rewrite table_set_plain by done. split.
  - unfold normalizeRecord, select_mapping, table_get. simpl.
    by rewrite lookup_insert_eq.
  - intros k Hk. unfold table_get. simpl. by rewrite lookup_insert_ne.
Qed.

Lemma registered_mapping_is_used_witness :
  normalizeRecord
    (snd (postMapping config.fieldMappings
            {| name := Some "vendor2"; mappings := Some MoreSamples.snake_case_mapping |}))
    (JObj Samples.customer_only) "vendor2"
    = Ok (normalizeWith MoreSamples.snake_case_mapping Samples.customer_only) /\
  (forall k, k <> "vendor2" ->
     table_get
       (snd (postMapping config.fieldMappings
               {| name := Some "vendor2"; mappings := Some MoreSamples.snake_case_mapping |}))
       k
     = table_get config.fieldMappings k).
Proof.
  apply (registered_mapping_is_used config.fieldMappings "vendor2"
           MoreSamples.snake_case_mapping Samples.customer_only); discriminate.
Defined.

(** X20: registering a mapping under the name [default] replaces the
    fallback: every source name under which the table provides nothing
    then resolves to it. *)
Theorem registering_default_replaces_fallback
    (fieldMappings : Table) (m : Mapping) (k : string) :
  table_get fieldMappings k = None ->
  select_mapping
    (snd (postMapping fieldMappings {| name := Some "default"; mappings := Some m |})) k
  = Some (FMapping m).
Proof.
  intros Hk. unfold postMapping. simpl. rewrite table_set_plain by discriminate.
  unfold select_mapping. destruct (decide (k = "default")) as [->|Hne].
  - unfold table_get. simpl. by rewrite lookup_insert_eq.
  - assert (Hsame : table_get
                      {| table_own := <["default" := m]> (table_own fieldMappings);
                         table_proto := table_proto fieldMappings |} k
                    = table_get fieldMappings k).
    { unfold table_get. simpl. by rewrite lookup_insert_ne. }
    rewrite Hsame, Hk. unfold table_get. simpl. by rewrite lookup_insert_eq.
Qed.

Lemma registering_default_replaces_fallback_witness :
  select_mapping
    (snd (postMapping config.fieldMappings
            {| name := Some "default"; mappings := Some MoreSamples.snake_case_mapping |}))
    "acme"
  = Some (FMapping MoreSamples.snake_case_mapping).
Proof.
  apply (registering_default_replaces_fallback config.fieldMappings
           MoreSamples.snake_case_mapping "acme").
  vm_compute. reflexivity.
Defined.

Lemma table_set_dom (fieldMappings : Table) (n : string) (m : Mapping) :
  dom (table_own fieldMappings) ⊆ dom (table_own (table_set fieldMappings n m)).
Proof.
  unfold table_set. destruct (_ && _); simpl; [done|]. rewrite dom_insert_L. set_solver.
Qed.

Lemma postMappings_dom (fieldMappings : Table) (reqs : list MappingRequest) :
  dom (table_own fieldMappings) ⊆ dom (table_own (postMappings fieldMappings reqs)).
Proof.
  unfold postMappings. revert fieldMappings.
  induction reqs as [|req reqs IH]; intros reg; simpl; [done|].
  etransitivity; [|apply IH].
  destruct (postMapping_table reg req) as [->|(n & m & _ & _ & _ & ->)]; [done|].
  simpl. apply table_set_dom.
Qed.

(** X21: no sequence of mapping requests removes a name from the table;
    so while [default] is registered, every source name resolves to
    something. *)
Theorem registry_never_loses_a_name
    (fieldMappings : Table) (reqs : list MappingRequest) :
  dom (table_own fieldMappings) ⊆ dom (table_own (postMappings fieldMappings reqs)) /\
  (is_Some (table_own fieldMappings !! "default") ->
   forall k, is_Some (select_mapping (postMappings fieldMappings reqs) k)).
Proof.
  split; [apply postMappings_dom|]. intros Hdef k.
  assert (Hd : is_Some (table_own (postMappings fieldMappings reqs) !! "default")).
  { apply elem_of_dom. apply (postMappings_dom fieldMappings reqs).
    by apply elem_of_dom. }
  destruct Hd as [d Hd]. unfold select_mapping.
  destruct (table_get (postMappings fieldMappings reqs) k); [by eexists|].
  rewrite (table_get_own _ _ d Hd). by eexists.
Qed.

Lemma registry_never_loses_a_name_witness :
  is_Some (select_mapping
             (postMappings config.fieldMappings
                [MoreSamples.acme_request; MoreSamples.acme_request]) "unlisted").
Proof.
  apply (proj2 (registry_never_loses_a_name config.fieldMappings
                  [MoreSamples.acme_request; MoreSamples.acme_request])).
  exists config.default_mapping. vm_compute. reflexivity.
Defined.

(** X24: a request that names its mapping [__proto__] is accepted, but on
    a table without such an entry it adds none: the mapping becomes the
    prototype of the table.  Every target field of that mapping is then a
    source name that resolves to the target's alias list, and normalizing
    a record with fields for such a source throws a TypeError when the
    alias list is not empty. *)
Theorem proto_post_replaces_prototype (fieldMappings : Table) (m : Mapping) :
  table_own fieldMappings !! "__proto__" = None ->
  table_proto fieldMappings = None ->
  postMapping fieldMappings (MoreSamples.proto_request m)
    = (Created "__proto__",
       {| table_own := table_own fieldMappings; table_proto := Some m |}) /\
  (forall k aliases, assoc k m = Some aliases -> table_own fieldMappings !! k = None ->
     select_mapping (snd (postMapping fieldMappings (MoreSamples.proto_request m))) k
     = Some (FAliases aliases)) /\
  (forall k a aliases e fields,
     assoc k m = Some (a :: aliases) -> table_own fieldMappings !! k = None ->
     normalizeRecord (snd (postMapping fieldMappings (MoreSamples.proto_request m)))
                     (JObj (e :: fields)) k
     = Throw TypeError).
Proof.
  intros Hown Hproto.
  assert (Hpost : postMapping fieldMappings (MoreSamples.proto_request m)
                  = (Created "__proto__",
                     {| table_own := table_own fieldMappings; table_proto := Some m |})).
  { unfold postMapping, MoreSamples.proto_request, table_set. simpl.
    rewrite Hproto, bool_decide_eq_false_2; [done|]. rewrite Hown. by intros [? ?]. }
  rewrite Hpost. simpl. split; [done|].
  assert (Hsel : forall k aliases, assoc k m = Some aliases ->
                   table_own fieldMappings !! k = None ->
                   select_mapping
                     {| table_own := table_own fieldMappings; table_proto := Some m |} k
                   = Some (FAliases aliases)).
  { intros k aliases Hk Hnone. unfold select_mapping, table_get. simpl.
    by rewrite Hnone, Hk. }
  split; [exact Hsel|].
  intros k a aliases e fields Hk Hnone. unfold normalizeRecord.
  by rewrite (Hsel k (a :: aliases) Hk Hnone).
Qed.

Lemma proto_post_replaces_prototype_witness :
  postMapping config.fieldMappings (MoreSamples.proto_request config.vendor1_mapping)
    = (Created "__proto__",
       {| table_own := table_own config.fieldMappings;
          table_proto := Some config.vendor1_mapping |}) /\
  (forall k aliases, assoc k config.vendor1_mapping = Some aliases ->
     table_own config.fieldMappings !! k = None ->
     select_mapping
       (snd (postMapping config.fieldMappings
               (MoreSamples.proto_request config.vendor1_mapping))) k
     = Some (FAliases aliases)) /\
  (forall k a aliases e fields,
     assoc k config.vendor1_mapping = Some (a :: aliases) ->
     table_own config.fieldMappings !! k = None ->
     normalizeRecord
       (snd (postMapping config.fieldMappings
               (MoreSamples.proto_request config.vendor1_mapping)))
       (JObj (e :: fields)) k
     = Throw TypeError).
Proof.
  apply (proto_post_replaces_prototype config.fieldMappings config.vendor1_mapping).
  - vm_compute. reflexivity.
  - reflexivity.
Defined.

(** After such a post, an upload for the source [name] fails. *)
Example upload_after_proto_post :
  upload Samples.three_customers_world (Samples.db_failing_at 9)
         (snd (postMapping config.fieldMappings
                 (MoreSamples.proto_request config.vendor1_mapping)))
         {| file := Some Samples.customers_upload; source := Some "name" |}
  = ServerError TypeError.
Proof. vm_compute. reflexivity. Qed.
